(** * Universal Profile deployment: permission encoding and ownership handoff

    A shallow embedding of [src/lib/services/universal-profile.service.ts]
    (lsp-factory).  The pure string manipulation is written over [string];
    everything that talks to the chain (the signer, gas estimates, submitted
    transactions, receipts) is an explicit state-passing computation over a
    [World] that records the history of external calls, and the rxjs
    observables of the service are computations that return the list of
    values they emit. *)

From Stdlib Require Import ZArith String Ascii List Lia.
From stdpp Require Import base option list strings gmap.

Local Open Scope string_scope.
Local Open Scope list_scope.
Local Open Scope Z_scope.

(** ** JavaScript strings and arrays *)

Module Js.

(** [s.substring(n)]: the string without its first [n] characters. *)
Fixpoint substring_from (n : nat) (s : string) : string :=
  match n, s with
  | O, _ => s
  | S n', String _ s' => substring_from n' s'
  | S _, EmptyString => EmptyString
  end.

(** [s.slice(a, b)] for [0 <= a <= b]. *)
Definition slice (a b : nat) (s : string) : string :=
  String.substring a (b - a) s.

(** Truthiness of a [string | null | undefined] value: only a non-empty
    string is truthy. *)
Definition truthy (v : option string) : bool :=
  match v with
  | Some (String _ _) => true
  | _ => false
  end.

(** The string behind a value that the source has tested to be one. *)
Definition string_of (v : option string) : string := default EmptyString v.

(** [a || b] on such values. *)
Definition or_else (a b : option string) : option string :=
  if truthy a then a else b.

(** [arr.indexOf(x)], [-1] when [x] does not occur. *)
Fixpoint indexOf_from (x : string) (arr : list string) (i : Z) : Z :=
  match arr with
  | [] => -1
  | y :: arr' => if String.eqb y x then i else indexOf_from x arr' (i + 1)
  end.

Definition indexOf (x : string) (arr : list string) : Z := indexOf_from x arr 0.

(** [arr.includes(x)] on an array of strings. *)
Definition includes (x : string) (arr : list string) : bool :=
  bool_decide (x ∈ arr).

(** [arr[i] = v] on an array whose holes read [undefined] ([None]).  A
    negative [i] creates a property named ["-1"] and leaves the elements
    alone; an index past the end extends the array. *)
Definition array_set {A} (arr : list (option A)) (i : Z) (v : option A)
  : list (option A) :=
  if i <? 0 then arr
  else if i <? Z.of_nat (length arr) then <[Z.to_nat i := v]> arr
  else arr ++ replicate (Z.to_nat i - length arr) None ++ [v].

End Js.

(** ** ethers.utils (ethers v5, bytes package) *)

Module Ethers.

Definition HexCharacters : string := "0123456789abcdef".

(** [HexCharacters[n]] *)
Definition hexChar (n : Z) : string :=
  match String.get (Z.to_nat n) HexCharacters with
  | Some c => String c EmptyString
  | None => EmptyString
  end.

(** [isBytes]: every element is an integer in [0, 256). *)
Definition isBytes (value : list Z) : bool :=
  forallb (fun v => (0 <=? v) && (v <? 256)) value.

(** [hexlify(value)] on an array of numbers; an array that is not a byte
    array makes it throw ("invalid hexlify value"). *)
Definition hexlify (value : list Z) : option string :=
  if isBytes value then
    Some ("0x" +:+
      String.concat EmptyString
        (map (fun v => hexChar (Z.shiftr (Z.land v 240) 4) +:+ hexChar (Z.land v 15))
             value))
  else None.

Definition isHexDigit (c : ascii) : bool :=
  let n := nat_of_ascii c in
  ((48 <=? n) && (n <=? 57) || (65 <=? n) && (n <=? 70) || (97 <=? n) && (n <=? 102))%nat.

Fixpoint allHexDigits (s : string) : bool :=
  match s with
  | EmptyString => true
  | String c s' => isHexDigit c && allHexDigits s'
  end.

(** [isHexString(value)]: matches [/^0x[0-9A-Fa-f]*$/]. *)
Definition isHexString (value : string) : bool :=
  match value with
  | String "0" (String "x" digits) => allHexDigits digits
  | _ => false
  end.

Fixpoint zeros (n : nat) : string :=
  match n with
  | O => EmptyString
  | S n' => String "0" (zeros n')
  end.

(** [hexZeroPad(value, length)] on a string: throws unless [value] is a hex
    string of at most [length] bytes, otherwise inserts zeros after ["0x"]
    until the string has [2 * length + 2] characters. *)
Definition hexZeroPad (value : string) (len : nat) : option string :=
  if negb (isHexString value) then None
  else if (2 * len + 2 <? String.length value)%nat then None
  else Some ("0x" +:+ zeros (2 * len + 2 - String.length value)
                  +:+ Js.substring_from 2 value).

(** The [k] low hexadecimal digits of [n], most significant first. *)
Fixpoint hexDigits (k : nat) (n : Z) : string :=
  match k with
  | O => EmptyString
  | S k' => hexDigits k' (n / 16) +:+ hexChar (n mod 16)
  end.

(** [defaultAbiCoder.encode(['uint256'], [n])]: the 32-byte big-endian word,
    out-of-range numbers throw. *)
Definition abiEncodeUint256 (n : Z) : option string :=
  if (0 <=? n) && (n <? 2 ^ 256) then Some ("0x" +:+ hexDigits 64 n) else None.

Definition hexDigitValue (c : ascii) : Z :=
  let n := Z.of_nat (nat_of_ascii c) in
  if (48 <=? n) && (n <=? 57) then n - 48
  else if (97 <=? n) && (n <=? 102) then n - 87
  else if (65 <=? n) && (n <=? 70) then n - 55
  else 0.

Fixpoint hexValue (acc : Z) (s : string) : Z :=
  match s with
  | EmptyString => acc
  | String c s' => hexValue (16 * acc + hexDigitValue c) s'
  end.

(** [BigNumber.from(hex)]: the number a ["0x"]-prefixed hex string denotes. *)
Definition hexToNumber (s : string) : Z := hexValue 0 (Js.substring_from 2 s).

End Ethers.

(** ** External collaborators: erc725.js and the helper modules *)

(** A permissions object such as [{ CHANGEOWNER: true, CHANGEPERMISSIONS: true }]:
    the keys in insertion order with their flags. *)
Definition Permissions : Type := list (string * bool).

(** [ERC725.encodePermissions] of erc725.js: the 32-byte hex bitmask of the
    flagged permissions. *)
Class ERC725 := { encodePermissions : Permissions -> string }.

(** The constants imported from [../helpers/config.helper], which is not among
    the sources, together with the two pieces of bytecode the deployment
    relies on: the proxy creation code that [getProxyByteCode] of
    [../helpers/deployment.helper] derives from a library address, and the
    creation code of the full account contract. *)
Class Config := {
  ADDRESS_PERMISSIONS_ARRAY_KEY : string;
  DEFAULT_PERMISSIONS : Permissions;
  ERC725_ACCOUNT_INTERFACE : string;
  GAS_BUFFER : Z;
  GAS_PRICE : Z;
  UNIVERSAL_RECEIVER_DELEGATE_KEY : string;  (* LSP3_UP_KEYS.UNIVERSAL_RECEIVER_DELEGATE_KEY *)
  LSP3_PROFILE : string;                     (* LSP3_UP_KEYS.LSP3_PROFILE *)
  PREFIX_PERMISSIONS : string;
  getProxyByteCode : string -> string;
  UniversalProfile_bytecode : string         (* UniversalProfile__factory.bytecode *)
}.

(** The LSP6 permission table of erc725.js, as one instance of the encoder:
    the flagged permissions' bit values are added up and the sum is printed
    as [leftPad(toHex(sum), 64)]. *)
Module LSP6.

Definition permissionValue (name : string) : Z :=
  if String.eqb name "CHANGEOWNER" then 1
  else if String.eqb name "CHANGEPERMISSIONS" then 2
  else if String.eqb name "ADDPERMISSIONS" then 4
  else if String.eqb name "SETDATA" then 8
  else if String.eqb name "CALL" then 16
  else if String.eqb name "STATICCALL" then 32
  else if String.eqb name "DELEGATECALL" then 64
  else if String.eqb name "DEPLOY" then 128
  else if String.eqb name "TRANSFERVALUE" then 256
  else if String.eqb name "SIGN" then 512
  else if String.eqb name "SUPER_SETDATA" then 1024
  else 0.

Definition encode (permissions : Permissions) : string :=
  let result :=
    fold_left
      (fun previous (kv : string * bool) =>
         if kv.2 then previous + permissionValue kv.1 else previous)
      permissions 0 in
  "0x" +:+ Ethers.hexDigits 64 result.


Definition erc725 : ERC725 := {| encodePermissions := encode |}.

(** A configuration to run the definitions on concrete inputs; the theorems
    hold for every configuration. *)
Definition config : Config := {|
  ADDRESS_PERMISSIONS_ARRAY_KEY :=
    "0xdf30dba06db6a30e65354d9a64c609861f089545ca58c6b4dbe31a5f338cb0e3";
  DEFAULT_PERMISSIONS :=
    [("CHANGEPERMISSIONS", true); ("SETDATA", true); ("CALL", true);
     ("STATICCALL", true); ("DELEGATECALL", true); ("DEPLOY", true);
     ("TRANSFERVALUE", true); ("SIGN", true)];
  ERC725_ACCOUNT_INTERFACE := "0x9a3bfe88";
  GAS_BUFFER := 100000;
  GAS_PRICE := 10000000000;
  UNIVERSAL_RECEIVER_DELEGATE_KEY :=
    "0x0cfc51aec37c55a4d0b1a65c6255c4bf2fbdf6277f3cc0730c45b828b6db8b47";
  LSP3_PROFILE :=
    "0x5ef83ad9559033e6e941db7d7c495acdce616347d28e90c7ce47cbfcfcad3bc5";
  PREFIX_PERMISSIONS := "0x4b80742d0000000082ac0000";
  getProxyByteCode := fun address =>
    "0x3d602d80600a3d3981f3363d3d373d3d3d363d73" +:+ Js.substring_from 2 address
      +:+ "5af43d82803e903d91602b57fd5bf3";
  UniversalProfile_bytecode := "0x60806040"
|}.

End LSP6.

(** ** Data model *)

(** A controller is a raw address or [{ address, permissions? }]. *)
Inductive Controller :=
| ControllerAddress (address : string)
| ControllerOptions (address : string) (permissions : option string).

(** Call overrides [{ from, gasLimit, gasPrice }]; gas amounts are BigNumbers. *)
Record Overrides := {
  from : option string;
  gasLimit : option Z;
  gasPrice : option Z
}.

Definition noOverrides : Overrides :=
  {| from := None; gasLimit := None; gasPrice := None |}.

(** Calldata built by [interface.getSighash] and [interface.encodeFunctionData]. *)
Inductive Payload :=
| Sighash (fn : string)
| FunctionData (fn : string) (args : list string).

Inductive Arg :=
| AString (s : string)
| AKeys (keys : list string)
| AValues (values : list (option string))
| APayload (p : Payload).

(** A method [fn] of the contract attached at [target], applied to [args]. *)
Record ContractCall := {
  target : string;
  fn : string;
  args : list Arg
}.

Inductive Request :=
| CallRequest (call : ContractCall) (overrides : Overrides)
| DeployRequest (bytecode : string) (constructorArgs : list string).

(** A transaction response: its hash, the address it creates when it is a
    deployment, and the request it was built from. *)
Record Transaction := {
  tx_hash : string;
  creates : option string;
  tx_request : Request
}.

Record Log := {
  log_address : string;
  topics : list string
}.

Record Receipt := {
  contractAddress : option string;
  to : option string;
  logs : list Log
}.

(** One entry of the history per call made to the outside world, with what
    came back ([None]: the call threw or the promise rejected). *)
Inductive Event :=
| EvGetAddress (result : option string)
| EvEstimateGas (call : ContractCall) (overrides : Overrides) (result : option Z)
| EvSend (request : Request) (result : option Transaction)
| EvWait (tx : Transaction) (result : option Receipt)
| EvCall (call : ContractCall) (result : option bool).

(** The signer: every answer may depend on everything that happened before.
    An accepted submission answers with the transaction hash and the address
    the transaction creates when it is a deployment. *)
Record Signer := {
  signer_getAddress : list Event -> option string;
  signer_estimateGas : list Event -> ContractCall -> Overrides -> option Z;
  signer_sendTransaction : list Event -> Request -> option (string * string);
  signer_call : list Event -> ContractCall -> option bool
}.

(** The chain behind [transaction.wait()]. *)
Class Provider := { waitForTransaction : list Event -> Transaction -> option Receipt }.

Inductive DeploymentType := CONTRACT | PROXY | TRANSACTION.
Inductive DeploymentStatus := PENDING | COMPLETE.
Inductive ContractNames := ERC725_Account | KEY_MANAGER | UNIVERSAL_RECEIVER.

(** A promise that has been created but not awaited: its outcome is fixed,
    a rejection ([None]) surfaces where it is awaited. *)
Definition Promise (A : Type) : Type := option A.

Record DeploymentEvent := {
  type : DeploymentType;
  contractName : ContractNames;
  status : DeploymentStatus;
  functionName : option string;
  transaction : option Transaction;
  pendingTransaction : option (Promise Transaction);
  receipt : option Receipt
}.

(** The result of [prepareSetDataParameters]. *)
Record SetDataParameters := {
  keysToSet : list string;
  valuesToSet : list (option string);
  erc725AccountAddress : string
}.

(** The result of [prepareTransferOwnershipTransaction$]. *)
Record TransferOwnershipParameters := {
  top_erc725AccountAddress : string;
  keyManagerAddress : string
}.

(** A contract object: [attach] gives one without a deployment transaction. *)
Record Contract := {
  address : string;
  deployTransaction : option Transaction
}.

(** ** Computations over the world *)

(** What a [shareReplay()] node has buffered. *)
Inductive Replay :=
| ReplayEvents (values : list DeploymentEvent)
| ReplayBatches (values : list (list DeploymentEvent))
| ReplaySetData (values : list SetDataParameters)
| ReplayOwnership (values : list TransferOwnershipParameters).

(** The world of one pipeline run: the calls made so far and the buffers of
    the [shareReplay()] nodes, by the name of the variable that holds the node. *)
Record World := {
  history : list Event;
  replays : gmap string Replay
}.

(** A promise-returning piece of code: from a world to its outcome ([None]
    when it throws or rejects) and the world it leaves. *)
Definition M (A : Type) : Type := World -> option A * World.

#[global] Instance M_ret : MRet M := fun A (x : A) w => (Some x, w).

#[global] Instance M_bind : MBind M := fun A B (f : A -> M B) (m : M A) w =>
  match m w with
  | (Some x, w') => f x w'
  | (None, w') => (None, w')
  end.

Definition throw {A} : M A := fun w => (None, w).

(** A pure step that may throw. *)
Definition liftOption {A} (o : option A) : M A :=
  match o with
  | Some x => mret x
  | None => throw
  end.

Definition await {A} (p : Promise A) : M A := liftOption p.

(** [try { body } catch (error) { handler }] *)
Definition try_catch {A} (body handler : M A) : M A := fun w =>
  match body w with
  | (Some x, w') => (Some x, w')
  | (None, w') => handler w'
  end.

Definition record (e : Event) (w : World) : World :=
  {| history := history w ++ [e]; replays := replays w |}.

Definition getAddress (signer : Signer) : M string := fun w =>
  let result := signer_getAddress signer (history w) in
  (result, record (EvGetAddress result) w).

Definition estimateGas (signer : Signer) (call : ContractCall) (overrides : Overrides)
  : M Z := fun w =>
  let result := signer_estimateGas signer (history w) call overrides in
  (result, record (EvEstimateGas call overrides result) w).

(** Submitting hands back a promise of the transaction response. *)
Definition sendTransaction (signer : Signer) (request : Request)
  : M (Promise Transaction) := fun w =>
  let result :=
    (fun r : string * string =>
       {| tx_hash := r.1;
          creates := match request with
                     | DeployRequest _ _ => Some r.2
                     | CallRequest _ _ => None
                     end;
          tx_request := request |})
      <$> signer_sendTransaction signer (history w) request in
  (Some result, record (EvSend request result) w).

(** [transaction.wait()] *)
Definition wait `{Provider} (tx : Transaction) : M Receipt := fun w =>
  let result := waitForTransaction (history w) tx in
  (result, record (EvWait tx result) w).

(** A read-only contract call returning a boolean. *)
Definition call (signer : Signer) (c : ContractCall) : M bool := fun w =>
  let result := signer_call signer (history w) c in
  (result, record (EvCall c result) w).

(** ** Observables

    A cold observable is run by subscribing to it: the subscription performs
    its calls and hands back the values it emitted before completing, or
    fails.  Subscriptions are run to completion one after the other, in the
    order rxjs starts them. *)

Abbreviation Observable A := (M (list A)) (only parsing).

(** [of(x)] *)
Definition of_ {A} (x : A) : Observable A := mret [x].
Definition EMPTY {A} : Observable A := mret [].

(** [defer(() => promise)] and [from(promise)] *)
Definition defer {A} (work : M A) : Observable A := x ← work; mret [x].

Fixpoint concat_obs {A} (sources : list (Observable A)) : Observable A :=
  match sources with
  | [] => mret []
  | source :: rest => xs ← source; ys ← concat_obs rest; mret (xs ++ ys)
  end.

Fixpoint subscribeEach {A B} (project : A -> Observable B) (xs : list A) : Observable B :=
  match xs with
  | [] => mret []
  | x :: xs' => ys ← project x; zs ← subscribeEach project xs'; mret (ys ++ zs)
  end.

(** [source.pipe(switchMap(project))]: each value of the source starts the
    inner observable (or async function) it is projected to. *)
Definition switchMap {A B} (project : A -> Observable B) (source : Observable A)
  : Observable B :=
  xs ← source; subscribeEach project xs.

Definition takeLast1 {A} (source : Observable A) : Observable A :=
  xs ← source; mret (option_list (last xs)).

Definition defaultIfEmpty {A} (x : A) (source : Observable A) : Observable A :=
  xs ← source; mret (match xs with [] => [x] | _ => xs end).

(** [forkJoin]: the last value of every source once all have completed,
    nothing when one of them completed empty. *)
Definition forkJoin2 {A B} (a : Observable A) (b : Observable B) : Observable (A * B) :=
  xs ← a; ys ← b;
  mret (match last xs, last ys with
        | Some x, Some y => [(x, y)]
        | _, _ => []
        end).

Definition forkJoin3 {A B C} (a : Observable A) (b : Observable B) (c : Observable C)
  : Observable (A * B * C) :=
  xs ← a; ys ← b; zs ← c;
  mret (match last xs, last ys, last zs with
        | Some x, Some y, Some z => [(x, y, z)]
        | _, _, _ => []
        end).

Definition forkJoin4 {A B C D} (a : Observable A) (b : Observable B) (c : Observable C)
    (d : Observable D) : Observable (A * B * C * D) :=
  xs ← a; ys ← b; zs ← c; us ← d;
  mret (match last xs, last ys, last zs, last us with
        | Some x, Some y, Some z, Some u => [(x, y, z, u)]
        | _, _, _, _ => []
        end).

Class Replayable (A : Type) := {
  to_replay : list A -> Replay;
  of_replay : Replay -> option (list A)
}.

#[global] Instance replayable_event : Replayable DeploymentEvent :=
  {| to_replay := ReplayEvents;
     of_replay r := match r with ReplayEvents l => Some l | _ => None end |}.
#[global] Instance replayable_batch : Replayable (list DeploymentEvent) :=
  {| to_replay := ReplayBatches;
     of_replay r := match r with ReplayBatches l => Some l | _ => None end |}.
#[global] Instance replayable_setData : Replayable SetDataParameters :=
  {| to_replay := ReplaySetData;
     of_replay r := match r with ReplaySetData l => Some l | _ => None end |}.
#[global] Instance replayable_ownership : Replayable TransferOwnershipParameters :=
  {| to_replay := ReplayOwnership;
     of_replay r := match r with ReplayOwnership l => Some l | _ => None end |}.

(** [source.pipe(shareReplay())]: the first subscription runs the source and
    buffers what it emitted; every later one is served from the buffer and
    performs no call.  A failed source leaves no buffer behind. *)
Definition shareReplay `{Replayable A} (node : string) (source : Observable A)
  : Observable A := fun w =>
  match replays w !! node ≫= of_replay with
  | Some xs => (Some xs, w)
  | None =>
      match source w with
      | (Some xs, w') =>
          (Some xs, {| history := history w'; replays := <[node := to_replay xs]> (replays w') |})
      | (None, w') => (None, w')
      end
  end.

(** ** Helpers of [../helpers/deployment.helper] *)

Section Helpers.
Context `{!Provider}.

Definition completed (deploymentEvent : DeploymentEvent) (r : Receipt) : DeploymentEvent :=
  {| type := type deploymentEvent;
     contractName := contractName deploymentEvent;
     status := COMPLETE;
     functionName := functionName deploymentEvent;
     transaction := transaction deploymentEvent;
     pendingTransaction := pendingTransaction deploymentEvent;
     receipt := Some r |}.

(** Modelled from the spec: [waitForReceipt] is not among the sources.  The
    step runner "waits until it is included in the chain" and hands back the
    event "with status COMPLETE (carrying the receipt) once confirmed" (§4.3):
    for every pending event of the step, its transaction is waited for and
    the completed event is emitted; a failed wait fails the stream. *)
Definition waitForReceipt (deploymentEvent_obs : Observable DeploymentEvent)
  : Observable DeploymentEvent :=
  switchMap (fun deploymentEvent =>
    defer (tx ← liftOption (transaction deploymentEvent);
           r ← wait tx;
           mret (completed deploymentEvent r)))
    deploymentEvent_obs.

(** Modelled from the spec: [waitForBatchedPendingTransactions] is not among
    the sources.  For every transaction of the batch, in order: the
    submission is awaited and reported PENDING, then it is waited for and
    reported COMPLETE with its receipt (§4.3). *)
Definition waitForBatchedPendingTransactions
    (pendingTransactions_obs : Observable (list DeploymentEvent))
  : Observable DeploymentEvent :=
  switchMap (fun pendingTransactionsArray =>
    subscribeEach (fun pendingEvent =>
      p ← liftOption (pendingTransaction pendingEvent);
      tx ← await p;
      let submitted :=
        {| type := type pendingEvent;
           contractName := contractName pendingEvent;
           status := PENDING;
           functionName := functionName pendingEvent;
           transaction := Some tx;
           pendingTransaction := pendingTransaction pendingEvent;
           receipt := None |} in
      r ← wait tx;
      mret [submitted; completed submitted r])
      pendingTransactionsArray)
    pendingTransactions_obs.

(** Modelled from the spec: [deployContract] is not among the sources.  It
    runs the deployment function and reports the creation "with status
    PENDING immediately after submission" (§4.3). *)
Definition deployContract (deployContractFunction : M Contract) (name : ContractNames)
  : M DeploymentEvent :=
  contract ← deployContractFunction;
  mret {| type := CONTRACT;
          contractName := name;
          status := PENDING;
          functionName := None;
          transaction := deployTransaction contract;
          pendingTransaction := None;
          receipt := None |}.

(** Modelled from the spec: [initialize] is not among the sources.  A proxy
    is "initialized via a dedicated initialization call rather than a
    constructor" (§4.3), and the step "may only run after that proxy's
    creation step has confirmed" (§4.4): for the confirmed creation, the
    arguments are computed and [initializeFunction] is submitted to the
    created contract, reported PENDING. *)
Definition initialize (signer : Signer) (deploymentEvent_obs : Observable DeploymentEvent)
    (initArguments : M (list string)) (initializeFunction : string)
  : Observable DeploymentEvent :=
  switchMap (fun deploymentEvent =>
    defer (r ← liftOption (receipt deploymentEvent);
           proxy ← liftOption (contractAddress r);
           initArgs ← initArguments;
           p ← sendTransaction signer
                 (CallRequest {| target := proxy;
                                 fn := initializeFunction;
                                 args := AString <$> initArgs |}
                              noOverrides);
           tx ← await p;
           mret {| type := TRANSACTION;
                   contractName := contractName deploymentEvent;
                   status := PENDING;
                   functionName := Some initializeFunction;
                   transaction := Some tx;
                   pendingTransaction := None;
                   receipt := None |}))
    (takeLast1 deploymentEvent_obs).

End Helpers.

(** ** The service: [universal-profile.service.ts] *)

Section Service.
Context `{!ERC725, !Config, !Provider}.

(** The contract with [bytecode] is created with the given constructor
    arguments: [new ContractFactory(abi, bytecode, signer).deploy(...)]. *)
Definition ContractFactory_deploy (signer : Signer) (bytecode : string)
    (constructorArgs : list string) : M Contract :=
  p ← sendTransaction signer (DeployRequest bytecode constructorArgs);
  tx ← await p;
  mret {| address := Js.string_of (creates tx); deployTransaction := Some tx |}.

Definition attach (contractAddress : string) : Contract :=
  {| address := contractAddress; deployTransaction := None |}.

Definition deployProxyContract (deployContractFunction : M Contract) (signer : Signer)
  : M DeploymentEvent :=
  contract ← deployContractFunction;
  signerAddress ← getAddress signer;
  deployedProxy ←
    ContractFactory_deploy signer (getProxyByteCode (address contract)) [signerAddress];
  let transaction := deployTransaction deployedProxy in
  mret {| type := PROXY;
          contractName := ERC725_Account;
          status := PENDING;
          functionName := None;
          transaction := transaction;
          pendingTransaction := None;
          receipt := None |}.

Definition deployLSP3Account (signer : Signer) (baseContractAddress byteCode : option string)
  : M DeploymentEvent :=
  let deploymentFunction : M Contract :=
    if Js.truthy baseContractAddress then
      mret (attach (Js.string_of baseContractAddress))
    else if Js.truthy byteCode then
      signerAddress ← getAddress signer;
      ContractFactory_deploy signer (Js.string_of byteCode) [signerAddress]
    else
      signerAddress ← getAddress signer;
      ContractFactory_deploy signer UniversalProfile_bytecode [signerAddress] in
  if Js.truthy baseContractAddress
  then deployProxyContract deploymentFunction signer
  else deployContract deploymentFunction ERC725_Account.

Definition initializeProxy (signer : Signer)
    (accountDeploymentReceipt_obs : Observable DeploymentEvent)
  : Observable DeploymentEvent :=
  shareReplay "accountDeploymentInitialize$"
    (initialize signer accountDeploymentReceipt_obs
       (signerAddress ← getAddress signer; mret [signerAddress])
       "initialize(address)").

Definition accountDeploymentWithBaseContractAddress_obs (signer : Signer)
    (baseContractAddress bytecode : option string) : Observable DeploymentEvent :=
  let accountDeployment_obs :=
    shareReplay "accountDeployment$"
      (defer (deployLSP3Account signer baseContractAddress bytecode)) in
  let accountDeploymentReceipt_obs :=
    shareReplay "accountDeploymentReceipt$" (waitForReceipt accountDeployment_obs) in
  let accountDeploymentInitialize_obs :=
    if Js.truthy baseContractAddress
    then initializeProxy signer accountDeploymentReceipt_obs
    else EMPTY in
  let accountDeploymentInitializeReceipt_obs :=
    shareReplay "accountDeploymentInitializeReceipt$"
      (waitForReceipt accountDeploymentInitialize_obs) in
  concat_obs [accountDeployment_obs;
              accountDeploymentReceipt_obs;
              accountDeploymentInitialize_obs;
              accountDeploymentInitializeReceipt_obs].

Definition controllerAddressOf (controller : Controller) : string :=
  match controller with
  | ControllerAddress a => a
  | ControllerOptions a _ => a
  end.

(** The key of the array element [index]:
    [ADDRESS_PERMISSIONS_ARRAY_KEY.slice(0, 34) + hexZeroPad(hexlify([index]), 16).substring(2)] *)
Definition arrayElementKey (index : Z) : option string :=
  hexIndex ← Ethers.hexlify [index];
  padded ← Ethers.hexZeroPad hexIndex 16;
  Some (Js.slice 0 34 ADDRESS_PERMISSIONS_ARRAY_KEY +:+ Js.substring_from 2 padded).

Definition prepareSetDataParameters (signer : Signer)
    (erc725AccountAddress universalReceiverDelegateAddress : string)
    (controllers : list Controller) (encodedLSP3Profile : option string)
  : M SetDataParameters :=
  let controllerAddresses := controllerAddressOf <$> controllers in
  let controllerPermissions :=
    (fun controller =>
       match controller with
       | ControllerAddress _ => Some (encodePermissions DEFAULT_PERMISSIONS)
       | ControllerOptions _ permissions => permissions
       end) <$> controllers in
  let addressPermissionsKeys :=
    (fun address => PREFIX_PERMISSIONS +:+ Js.substring_from 2 address)
      <$> controllerAddresses in
  addressPermissionsArrayElements ←
    liftOption (mapM id (imap (fun index _ => arrayElementKey (Z.of_nat index))
                              controllerAddresses));
  universalReceiverPermissionIndex ←
    liftOption (arrayElementKey (Z.of_nat (length controllerAddresses)));
  let keysToSet :=
    [UNIVERSAL_RECEIVER_DELEGATE_KEY;
     PREFIX_PERMISSIONS +:+ Js.substring_from 2 universalReceiverDelegateAddress;
     ADDRESS_PERMISSIONS_ARRAY_KEY]
    ++ addressPermissionsArrayElements
    ++ addressPermissionsKeys
    ++ [universalReceiverPermissionIndex] in
  arrayLength ←
    liftOption (Ethers.abiEncodeUint256 (Z.of_nat (length controllerPermissions) + 1));
  let valuesToSet :=
    [Some universalReceiverDelegateAddress;
     Some (encodePermissions [("SUPER_SETDATA", true)]);
     Some arrayLength]
    ++ (Some <$> controllerAddresses)
    ++ controllerPermissions
    ++ [Some universalReceiverDelegateAddress] in
  signerAddress ← getAddress signer;
  let signerKey := PREFIX_PERMISSIONS +:+ Js.substring_from 2 signerAddress in
  let handoff := encodePermissions [("CHANGEOWNER", true); ("CHANGEPERMISSIONS", true)] in
  let '(keysToSet, valuesToSet) :=
    if negb (Js.includes signerAddress controllerAddresses)
    then (keysToSet ++ [signerKey], valuesToSet ++ [Some handoff])
    else (keysToSet, Js.array_set valuesToSet (Js.indexOf signerKey keysToSet) (Some handoff)) in
  let '(keysToSet, valuesToSet) :=
    if Js.truthy encodedLSP3Profile
    then (keysToSet ++ [LSP3_PROFILE], valuesToSet ++ [encodedLSP3Profile])
    else (keysToSet, valuesToSet) in
  mret {| keysToSet := keysToSet;
          valuesToSet := valuesToSet;
          erc725AccountAddress := erc725AccountAddress |}.

Definition transactionEvent (name : string) (tx : option Transaction)
    (pending : option (Promise Transaction)) : DeploymentEvent :=
  {| type := TRANSACTION;
     contractName := ERC725_Account;
     status := PENDING;
     functionName := Some name;
     transaction := tx;
     pendingTransaction := pending;
     receipt := None |}.

Definition sendSetDataAndTransferOwnershipTransactions (signer : Signer)
    (erc725AccountAddress : string) (keysToSet : list string)
    (valuesToSet : list (option string)) (keyManagerAddress : string)
  : M (list DeploymentEvent) :=
  let erc725Account := attach erc725AccountAddress in
  signerAddress ← getAddress signer;
  let setData :=
    {| target := address erc725Account;
       fn := "setData(bytes32[],bytes[])";
       args := [AKeys keysToSet; AValues valuesToSet] |} in
  let transferOwnership :=
    {| target := address erc725Account;
       fn := "transferOwnership";
       args := [AString keyManagerAddress] |} in
  setDataEstimate ← estimateGas signer setData noOverrides;
  transferOwnershipEstimate ←
    estimateGas signer transferOwnership
      {| from := Some signerAddress; gasLimit := None; gasPrice := None |};
  (* Send batched transactions together *)
  setDataTransaction ←
    sendTransaction signer
      (CallRequest setData
         {| gasLimit := Some (setDataEstimate + GAS_BUFFER);
            gasPrice := Some GAS_PRICE;
            from := Some signerAddress |});
  transferOwnershipTransaction ←
    sendTransaction signer
      (CallRequest transferOwnership
         {| from := Some signerAddress;
            gasLimit := Some (transferOwnershipEstimate + GAS_BUFFER);
            gasPrice := Some GAS_PRICE |});
  mret [transactionEvent "setData(bytes32[],bytes[])" None (Some setDataTransaction);
        transactionEvent "transferOwnership(address)" None (Some transferOwnershipTransaction)].

Definition claimOwnership (signer : Signer) (erc725AccountAddress keyManagerAddress : string)
  : M DeploymentEvent :=
  signerAddress ← getAddress signer;
  let claimOwnershipPayload := Sighash "claimOwnership" in
  let keyManager := attach keyManagerAddress in
  let execute :=
    {| target := address keyManager;
       fn := "execute";
       args := [APayload claimOwnershipPayload] |} in
  claimOwnershipEstimate ←
    estimateGas signer execute
      {| from := Some signerAddress; gasLimit := None; gasPrice := None |};
  p ← sendTransaction signer
        (CallRequest execute
           {| from := Some signerAddress;
              gasPrice := Some GAS_PRICE;
              gasLimit := Some (claimOwnershipEstimate + GAS_BUFFER) |});
  claimOwnershipTransaction ← await p;
  mret (transactionEvent "claimOwnership()" (Some claimOwnershipTransaction) None).

(** The permission value the revocation writes back for the signer. *)
Definition signerPermissionOf (signerAddress : string) (controllers : list Controller)
  : option string :=
  let controllerAddress := controllerAddressOf <$> controllers in
  if Js.includes signerAddress controllerAddress then
    controller ← controllers !! Z.to_nat (Js.indexOf signerAddress controllerAddress);
    Some (match controller with
          | ControllerAddress _ => encodePermissions DEFAULT_PERMISSIONS
          | ControllerOptions _ permissions =>
              default (encodePermissions DEFAULT_PERMISSIONS) permissions
          end)
  else Some (encodePermissions []).

Definition revokeSignerPermissions (signer : Signer)
    (keyManagerAddress erc725AccountAddress : string) (controllers : list Controller)
  : M DeploymentEvent :=
  let keyManager := attach keyManagerAddress in
  signerAddress ← getAddress signer;
  signerPermission ← liftOption (signerPermissionOf signerAddress controllers);
  let revokeSignerPermissionsPayload :=
    FunctionData "setData(bytes32,bytes)"
      [PREFIX_PERMISSIONS +:+ Js.substring_from 2 signerAddress; signerPermission] in
  let execute :=
    {| target := address keyManager;
       fn := "execute";
       args := [APayload revokeSignerPermissionsPayload] |} in
  revokeSignerPermissionsEstimate ←
    estimateGas signer execute
      {| from := Some signerAddress; gasLimit := None; gasPrice := None |};
  p ← sendTransaction signer
        (CallRequest execute
           {| from := Some signerAddress;
              gasPrice := Some GAS_PRICE;
              gasLimit := Some (revokeSignerPermissionsEstimate + GAS_BUFFER) |});
  revokeSignerPermissionsTransaction ← await p;
  mret (transactionEvent "setData(bytes32,bytes)" (Some revokeSignerPermissionsTransaction) None).

(** The address a receipt stands for: [receipt.contractAddress ||
    receipt.logs[0].address] when the signer is itself a profile, else
    [receipt.contractAddress || receipt.to].  A missing receipt or log throws;
    an address that resolves to nothing fails here, where the source fails at
    the first use of the address. *)
Definition addressOfReceipt (isSignerUniversalProfile : bool) (r : option Receipt)
  : option string :=
  r ← r;
  if isSignerUniversalProfile then
    if Js.truthy (contractAddress r) then contractAddress r
    else log_address <$> logs r !! 0%nat
  else Js.or_else (contractAddress r) (to r).

Definition prepareTransferOwnershipTransaction_obs
    (accountDeployment_obs keyManagerDeployment_obs : Observable DeploymentEvent)
    (isSignerUniversalProfile_obs : Observable bool)
  : Observable TransferOwnershipParameters :=
  shareReplay "transferOwnershipParameters$"
    (switchMap (fun '(account, keyManager, isSignerUniversalProfile) =>
       erc725AccountAddress ←
         liftOption (addressOfReceipt isSignerUniversalProfile (receipt account));
       keyManagerAddress ←
         liftOption (addressOfReceipt isSignerUniversalProfile (receipt keyManager));
       of_ {| top_erc725AccountAddress := erc725AccountAddress;
              keyManagerAddress := keyManagerAddress |})
       (forkJoin3 accountDeployment_obs keyManagerDeployment_obs
                  isSignerUniversalProfile_obs)).

(** [{ receipt: null }] *)
Definition noReceipt : DeploymentEvent :=
  {| type := CONTRACT;
     contractName := UNIVERSAL_RECEIVER;
     status := PENDING;
     functionName := None;
     transaction := None;
     pendingTransaction := None;
     receipt := None |}.

(** The delegate address: from the delegate's receipt when there is one, else
    the default address. *)
Definition universalReceiverDelegateAddressOf (isSignerUniversalProfile : bool)
    (universalReceiverDelegateReceipt : option Receipt)
    (defaultUniversalReceiverDelegateAddress : option string) : option string :=
  let fromReceipt :=
    if isSignerUniversalProfile then
      Js.or_else (universalReceiverDelegateReceipt ≫= contractAddress)
        (r ← universalReceiverDelegateReceipt;
         log0 ← logs r !! 0%nat;
         topic ← topics log0 !! 2%nat;
         Some (Js.substring_from 26 topic))
    else
      Js.or_else (universalReceiverDelegateReceipt ≫= contractAddress)
        (universalReceiverDelegateReceipt ≫= to) in
  Js.or_else fromReceipt defaultUniversalReceiverDelegateAddress.

Definition prepareSetDataTransaction_obs (signer : Signer)
    (account_obs universalReceiver_obs : Observable DeploymentEvent)
    (controllerAddresses : list Controller)
    (lsp3ProfileData_obs : Observable (option string))
    (isSignerUniversalProfile_obs : Observable bool)
    (defaultUniversalReceiverDelegateAddress : option string)
  : Observable SetDataParameters :=
  let universalReceiverAddress_obs :=
    shareReplay "universalReceiverAddress$" (defaultIfEmpty noReceipt universalReceiver_obs) in
  shareReplay "setDataParameters$"
    (switchMap (fun '(account, universalReceiver, lsp3ProfileData, isSignerUniversalProfile) =>
       defer (
         lsp3AccountAddress ←
           liftOption (addressOfReceipt isSignerUniversalProfile (receipt account));
         universalReceiverDelegateAddress ←
           liftOption (universalReceiverDelegateAddressOf isSignerUniversalProfile
                         (receipt universalReceiver)
                         defaultUniversalReceiverDelegateAddress);
         prepareSetDataParameters signer lsp3AccountAddress
           universalReceiverDelegateAddress controllerAddresses lsp3ProfileData))
       (forkJoin4 account_obs universalReceiverAddress_obs lsp3ProfileData_obs
                  isSignerUniversalProfile_obs)).

Definition setDataAndTransferOwnershipTransactions_obs (signer : Signer)
    (account_obs universalReceiver_obs : Observable DeploymentEvent)
    (controllerAddresses : list Controller)
    (lsp3ProfileData_obs : Observable (option string))
    (isSignerUniversalProfile_obs : Observable bool)
    (keyManagerDeployment_obs : Observable DeploymentEvent)
    (defaultUniversalReceiverDelegateAddress : option string)
  : Observable DeploymentEvent :=
  let setDataParameters_obs :=
    prepareSetDataTransaction_obs signer account_obs universalReceiver_obs
      controllerAddresses lsp3ProfileData_obs isSignerUniversalProfile_obs
      defaultUniversalReceiverDelegateAddress in
  let transferOwnershipParameters_obs :=
    prepareTransferOwnershipTransaction_obs account_obs keyManagerDeployment_obs
      isSignerUniversalProfile_obs in
  let pendingSetDataAndTransferOwnershipArray_obs :=
    shareReplay "pendingSetDataAndTransferOwnershipArray$"
      (switchMap (fun '(setDataParameters, transferOwnershipParameters) =>
         defer (sendSetDataAndTransferOwnershipTransactions signer
                  (erc725AccountAddress setDataParameters)
                  (keysToSet setDataParameters)
                  (valuesToSet setDataParameters)
                  (keyManagerAddress transferOwnershipParameters)))
         (forkJoin2 setDataParameters_obs transferOwnershipParameters_obs)) in
  let setDataAndTransferOwnership_obs :=
    waitForBatchedPendingTransactions pendingSetDataAndTransferOwnershipArray_obs in
  let claimOwnership_obs :=
    shareReplay "claimOwnership$"
      (switchMap (fun transferOwnershipParameters =>
         switchMap (fun _ =>
           defer (claimOwnership signer
                    (top_erc725AccountAddress transferOwnershipParameters)
                    (keyManagerAddress transferOwnershipParameters)))
           (takeLast1 setDataAndTransferOwnership_obs))
         transferOwnershipParameters_obs) in
  let claimOwnershipReceipt_obs := waitForReceipt claimOwnership_obs in
  let revokeSignerPermissions_obs :=
    shareReplay "revokeSignerPermissions$"
      (switchMap (fun '(setDataParameters, transferOwnershipParameters) =>
         switchMap (fun _ =>
           defer (revokeSignerPermissions signer
                    (keyManagerAddress transferOwnershipParameters)
                    (erc725AccountAddress setDataParameters)
                    controllerAddresses))
           claimOwnershipReceipt_obs)
         (forkJoin2 setDataParameters_obs transferOwnershipParameters_obs)) in
  let revokeSignerPermissionsReceipt_obs := waitForReceipt revokeSignerPermissions_obs in
  concat_obs [setDataAndTransferOwnership_obs;
              claimOwnership_obs;
              claimOwnershipReceipt_obs;
              revokeSignerPermissions_obs;
              revokeSignerPermissionsReceipt_obs].

Definition addressIsUniversalProfile (address : string) (signer : Signer) : M bool :=
  try_catch
    (let supportsInterface interfaceId :=
       call signer {| target := address;
                      fn := "supportsInterface";
                      args := [AString interfaceId] |} in
     isUniversalProfile ← supportsInterface ERC725_ACCOUNT_INTERFACE;
     if negb isUniversalProfile
     then supportsInterface "0x63cb749b"
     else mret isUniversalProfile)
    (mret false).

End Service.

(** ** Vocabulary of the statements *)

(** [hexZeroPad(hexlify([index]), 16)], the part of an array-element key that
    depends on the index. *)
Definition paddedIndex (index : Z) : option string :=
  hexIndex ← Ethers.hexlify [index]; Ethers.hexZeroPad hexIndex 16.

(** The calls that running [m] from [w] adds to the history. *)
Definition trace {A} (m : M A) (w : World) : list Event :=
  drop (length (history w)) (history (m w).2).

Section GasVocabulary.
Context `{!Config}.



End GasVocabulary.

(** [keyManager.execute(getSighash('claimOwnership'))] *)
Definition isClaimOwnership (tx : Transaction) : Prop :=
  exists keyManager overrides,
    tx_request tx =
      CallRequest {| target := keyManager;
                     fn := "execute";
                     args := [APayload (Sighash "claimOwnership")] |} overrides.

(** [keyManager.execute(encodeFunctionData('setData(bytes32,bytes)', [key, value]))] *)
Definition isRevocation (request : Request) : Prop :=
  exists keyManager key value overrides,
    request =
      CallRequest {| target := keyManager;
                     fn := "execute";
                     args := [APayload (FunctionData "setData(bytes32,bytes)" [key; value])] |}
                  overrides.

(** A receipt of a claim-ownership transaction has been observed. *)
Definition claimConfirmed (h : list Event) : Prop :=
  exists tx r, EvWait tx (Some r) ∈ h /\ isClaimOwnership tx.

(** Every submission of a revocation comes after such a receipt. *)
Definition revocationAfterClaim (h : list Event) : Prop :=
  forall before request result after,
    h = before ++ EvSend request result :: after ->
    isRevocation request ->
    claimConfirmed before.

Definition claimEvent (deploymentEvent : DeploymentEvent) : Prop :=
  exists tx, transaction deploymentEvent = Some tx /\ isClaimOwnership tx.

(** What the [claimOwnership$] node has buffered are claim-ownership events. *)
Definition claimBuffer (w : World) : Prop :=
  forall events,
    replays w !! "claimOwnership$" = Some (ReplayEvents events) ->
    Forall claimEvent events.

(** A step from [w] to [w'] that submits no revocation and leaves the buffer
    of [claimOwnership$] alone. *)
Definition quietStep (w w' : World) : Prop :=
  exists l,
    history w' = history w ++ l /\
    (forall request result, EvSend request result ∈ l -> ~ isRevocation request) /\
    replays w' !! "claimOwnership$" = replays w !! "claimOwnership$".

(** A computation all of whose runs are such steps: what the observables
    handed to the handoff are expected to be. *)
Definition quiet {A} (m : M A) : Prop := forall w, quietStep w (m w).2.

(** Every value [m] can return satisfies [Q]. *)
Definition yields {A} (m : M A) (Q : A -> Prop) : Prop :=
  forall w x, (m w).1 = Some x -> Q x.

(** An invariant of the handoff: kept by quiet steps and by buffering
    claim-ownership events, and it makes the buffer hold such events. *)
Record Invariant (I : World -> Prop) : Prop := {
  inv_step : forall w w', I w -> quietStep w w' -> I w';
  inv_claim : forall w events,
    I w -> Forall claimEvent events ->
    I {| history := history w;
         replays := <["claimOwnership$" := ReplayEvents events]> (replays w) |};
  inv_buffer : forall w, I w -> claimBuffer w
}.

(** [m] keeps the invariant, and what it returns from a world that satisfies
    the invariant satisfies [Q]. *)
Definition keeps (I : World -> Prop) {A} (m : M A) (Q : A -> Prop) : Prop :=
  forall w, I w -> I (m w).2 /\ forall x, (m w).1 = Some x -> Q x.

(** The two invariants of the handoff: before and after the claim receipt. *)
Definition ordered (w : World) : Prop :=
  revocationAfterClaim (history w) /\ claimBuffer w.

Definition confirmed (w : World) : Prop :=
  ordered w /\ claimConfirmed (history w).

(** ** A concrete world to run the definitions in *)

Module Sample.

Definition signerAddress : string := "0xf39Fd6e51aad88F6F4ce6aB8827279cffFb92266".
Definition accountAddress : string := "0x5FbDB2315678afecb367f032d93F642f64180aa3".
Definition keyManagerAddress : string := "0xe7f1725E7734CE288F8367e1Bb143E90bb3F0512".
Definition delegateAddress : string := "0x9fE46736679d2D9a65F0992F2272dE9f3c7fa6e0".
Definition otherAddress : string := "0x70997970C51812dc3A010C7d01b50e0d17dc79C8".

(** A signer whose calls all succeed: gas estimates grow with the history,
    every submission is accepted and deployments create [accountAddress]. *)
Definition signer : Signer := {|
  signer_getAddress := fun _ => Some signerAddress;
  signer_estimateGas := fun h _ _ => Some (21000 + Z.of_nat (length h));
  signer_sendTransaction := fun h request =>
    Some ("0x" +:+ Ethers.hexDigits 8 (Z.of_nat (length h)), accountAddress);
  signer_call := fun _ _ => Some false
|}.

(** A chain that confirms every transaction. *)
Definition provider : Provider := {|
  waitForTransaction := fun _ tx =>
    Some {| contractAddress := creates tx;
            to := match tx_request tx with
                  | CallRequest c _ => Some (target c)
                  | DeployRequest _ _ => None
                  end;
            logs := [] |}
|}.

(** The world before anything was called. *)
Definition world : World := {| history := []; replays := ∅ |}.

(** A confirmed deployment of a contract at [address]. *)
Definition deployed (name : ContractNames) (address : string) : DeploymentEvent :=
  {| type := CONTRACT;
     contractName := name;
     status := COMPLETE;
     functionName := None;
     transaction := None;
     pendingTransaction := None;
     receipt := Some {| contractAddress := Some address; to := None; logs := [] |} |}.

(** The upstream observables of a run whose account and key manager are
    deployed, without a delegate of its own nor profile data. *)
Definition account_obs : M (list DeploymentEvent) :=
  of_ (deployed ERC725_Account accountAddress).
Definition keyManagerDeployment_obs : M (list DeploymentEvent) :=
  of_ (deployed KEY_MANAGER keyManagerAddress).
Definition universalReceiver_obs : M (list DeploymentEvent) := EMPTY.
Definition lsp3ProfileData_obs : M (list (option string)) := of_ None.
Definition isSignerUniversalProfile_obs : M (list bool) := of_ false.

End Sample.

(** * Proofs *)

(** ** Tactics to run computations symbolically *)

(** Unfolding the monad. *)
Ltac unfold_M :=
  unfold mbind, M_bind, mret, M_ret, liftOption, await, throw in *.

(** Running the primitive calls: the world is updated in place. *)
Ltac run_M :=
  repeat (progress (
    unfold mbind, M_bind, mret, M_ret, liftOption, await, throw, try_catch,
      getAddress, estimateGas, sendTransaction, wait, call, record in *;
    cbn beta iota zeta;
    cbn [history replays fst snd fmap option_fmap option_map address attach
         deployTransaction])).




(** Running the observable combinators and the replay buffers. *)
Ltac run_obs :=
  repeat (progress (
    unfold shareReplay, defer, switchMap, takeLast1, defaultIfEmpty, EMPTY, of_,
      option_list, option_rect in *;
    cbn [concat_obs subscribeEach];
    run_M;
    cbn [to_replay of_replay replayable_event replayable_batch replayable_setData
         replayable_ownership mbind option_bind option_ret mret last option_list app
         transaction receipt type status contractName functionName pendingTransaction
         completed creates tx_request tx_hash contractAddress list_fmap];
    rewrite ?lookup_insert_eq;
    rewrite ?lookup_insert_ne by done)).

(** One case analysis on the next answer of the signer or of the chain. *)
Ltac destruct_world :=
  match goal with
  | |- context [signer_getAddress ?s ?h] =>
      let E := fresh "Haddress" in
      destruct (signer_getAddress s h) eqn:E
  | |- context [signer_estimateGas ?s ?h ?c ?o] =>
      let E := fresh "Hestimate" in
      destruct (signer_estimateGas s h c o) eqn:E
  | |- context [signer_sendTransaction ?s ?h ?r] =>
      let E := fresh "Hsent" in
      destruct (signer_sendTransaction s h r) as [[? ?]|] eqn:E
  | |- context [@waitForTransaction ?P ?h ?tx] =>
      let E := fresh "Hwait" in
      destruct (@waitForTransaction P h tx) as [[[?|] ? ?]|] eqn:E
  end.

(** A node that has buffered nothing runs its source. *)
Ltac fresh_nodes :=
  repeat match goal with
  | F : replays ?w !! ?node = None |- context [replays ?w !! ?node] => rewrite F
  end.

Ltac execute := repeat (run_obs; fresh_nodes; try destruct_world).

(** The members of a list that is given element by element. *)
Ltac elem_cases H :=
  repeat (apply elem_of_cons in H as [H|H]; [try discriminate H|]);
  try (apply elem_of_nil in H; destruct H).

(** ** Hexadecimal strings and array-element keys *)

Lemma hexlify_out_of_range (i : Z) : 256 <= i -> Ethers.hexlify [i] = None.
Proof.
  intros Hi. unfold Ethers.hexlify, Ethers.isBytes. cbn [forallb].
  replace (i <? 256) with false by (symmetry; apply Z.ltb_ge; lia).
  by rewrite andb_false_r.
Qed.

(** For a byte the padded index is ["0x"], thirty zeros and the two digits
    of the byte: checked on the 256 bytes. *)
Lemma paddedIndex_value (i : nat) :
  (i < 256)%nat ->
  paddedIndex (Z.of_nat i) =
    Some ("0x" +:+ Ethers.zeros 30 +:+ Ethers.hexDigits 2 (Z.of_nat i)).
Proof.
  intros Hi.
  assert (Hall : forallb (fun n =>
                   bool_decide (paddedIndex (Z.of_nat n) =
                     Some ("0x" +:+ Ethers.zeros 30 +:+ Ethers.hexDigits 2 (Z.of_nat n))))
                   (seq 0 256) = true) by (vm_compute; reflexivity).
  rewrite forallb_forall in Hall.
  eapply bool_decide_eq_true_1, Hall, in_seq. lia.
Qed.

Lemma paddedIndex_byte (i : nat) : (i < 256)%nat -> is_Some (paddedIndex (Z.of_nat i)).
Proof. intros Hi. rewrite paddedIndex_value by done. eauto. Qed.

Lemma hexValue_app (s1 s2 : string) (acc : Z) :
  Ethers.hexValue acc (s1 +:+ s2) = Ethers.hexValue (Ethers.hexValue acc s1) s2.
Proof. revert acc. induction s1 as [|c s1 IH]; intros acc; cbn; [done|]. apply IH. Qed.

Lemma hexValue_hexChar (d acc : Z) :
  0 <= d < 16 -> Ethers.hexValue acc (Ethers.hexChar d) = 16 * acc + d.
Proof.
  intros Hd.
  assert (Hcases : d = 0 \/ d = 1 \/ d = 2 \/ d = 3 \/ d = 4 \/ d = 5 \/ d = 6 \/ d = 7 \/
                   d = 8 \/ d = 9 \/ d = 10 \/ d = 11 \/ d = 12 \/ d = 13 \/ d = 14 \/ d = 15)
    by lia.
  repeat (destruct Hcases as [->|Hcases]; [reflexivity|]). by subst.
Qed.

Lemma hexValue_hexDigits (k : nat) (n acc : Z) :
  0 <= n < 16 ^ Z.of_nat k ->
  Ethers.hexValue acc (Ethers.hexDigits k n) = acc * 16 ^ Z.of_nat k + n.
Proof.
  revert n acc. induction k as [|k IH]; intros n acc Hn.
  - cbn in *. lia.
  - cbn [Ethers.hexDigits]. rewrite hexValue_app.
    rewrite Nat2Z.inj_succ, Z.pow_succ_r in * by lia.
    rewrite IH by (split; [apply Z.div_pos; lia | apply Z.div_lt_upper_bound; lia]).
    rewrite hexValue_hexChar by (apply Z.mod_pos_bound; lia).
    pose proof (Z.div_mod n 16). lia.
Qed.

Lemma hexToNumber_word (n : Z) :
  0 <= n < 2 ^ 256 -> Ethers.hexToNumber ("0x" +:+ Ethers.hexDigits 64 n) = n.
Proof.
  intros Hn. change (Ethers.hexValue 0 (Ethers.hexDigits 64 n) = n).
  rewrite hexValue_hexDigits; [lia|].
  replace (16 ^ Z.of_nat 64) with (2 ^ 256) by (vm_compute; reflexivity). done.
Qed.

Lemma indexOf_from_bounds (x : string) (arr : list string) (i : Z) :
  Js.indexOf_from x arr i = -1 \/
  i <= Js.indexOf_from x arr i < i + Z.of_nat (length arr).
Proof.
  revert i. induction arr as [|y arr IH]; intros i; cbn [Js.indexOf_from length]; [by left|].
  destruct (String.eqb y x); [right; lia|].
  destruct (IH (i + 1)) as [->|?]; [by left|right; lia].
Qed.

Lemma indexOf_lt (x : string) (arr : list string) :
  Js.indexOf x arr < Z.of_nat (length arr).
Proof.
  unfold Js.indexOf. destruct (indexOf_from_bounds x arr 0) as [Hb|Hb]; lia.
Qed.

Lemma indexOf_from_elem (x : string) (arr : list string) (i : Z) :
  x ∈ arr ->
  exists k : nat,
    Js.indexOf_from x arr i = i + Z.of_nat k /\ arr !! k = Some x /\
    forall j : nat, (j < k)%nat -> arr !! j <> Some x.
Proof.
  revert i. induction arr as [|y arr IH]; intros i Hin; [by apply elem_of_nil in Hin|].
  cbn [Js.indexOf_from]. destruct (String.eqb y x) eqn:Heq.
  - apply String.eqb_eq in Heq as ->. exists 0%nat. repeat split; [lia|lia].
  - apply String.eqb_neq in Heq. apply elem_of_cons in Hin as [->|Hin]; [done|].
    destruct (IH (i + 1) Hin) as (k & Hk & Hlook & Hfirst).
    exists (S k). repeat split; [lia|done|].
    intros [|j] Hj; cbn; [congruence|]. apply Hfirst. lia.
Qed.

Lemma indexOf_elem (x : string) (arr : list string) :
  x ∈ arr ->
  exists k : nat,
    Js.indexOf x arr = Z.of_nat k /\ arr !! k = Some x /\
    forall j : nat, (j < k)%nat -> arr !! j <> Some x.
Proof. intros Hin. destruct (indexOf_from_elem x arr 0 Hin) as (k & ? & ?). exists k. by rewrite <- (Z.add_0_l (Z.of_nat k)). Qed.

Lemma length_array_set {A} (arr : list (option A)) (i : Z) (v : option A) :
  i < Z.of_nat (length arr) -> length (Js.array_set arr i v) = length arr.
Proof.
  intros Hi. unfold Js.array_set. destruct (i <? 0); [done|].
  replace (i <? Z.of_nat (length arr)) with true by (symmetry; apply Z.ltb_lt; lia).
  apply length_insert.
Qed.


(** ** Quiet computations *)

Lemma quietStep_refl w : quietStep w w.
Proof. exists []. rewrite app_nil_r. split_and!; [done| |done]. by intros ? ? ?%elem_of_nil. Qed.

Lemma quietStep_trans w1 w2 w3 : quietStep w1 w2 -> quietStep w2 w3 -> quietStep w1 w3.
Proof.
  intros (l1 & Hh1 & Hq1 & Hr1) (l2 & Hh2 & Hq2 & Hr2). exists (l1 ++ l2).
  split_and!.
  - by rewrite Hh2, Hh1, app_assoc.
  - intros request result [Hin|Hin]%elem_of_app; eauto.
  - by rewrite Hr2.
Qed.

Lemma quietStep_record w e :
  (forall request result, e = EvSend request result -> ~ isRevocation request) ->
  quietStep w (record e w).
Proof.
  intros He. exists [e]. split_and!; [done| |done].
  intros request result Hin%list_elem_of_singleton. by apply (He request result).
Qed.

Lemma quiet_ret {A} (x : A) : quiet (mret x).
Proof. intros w. apply quietStep_refl. Qed.

Lemma quiet_throw {A} : quiet (@throw A).
Proof. intros w. apply quietStep_refl. Qed.

Lemma quiet_liftOption {A} (o : option A) : quiet (liftOption o).
Proof. destruct o; [apply quiet_ret | apply quiet_throw]. Qed.

Lemma quiet_bind {A B} (m : M A) (f : A -> M B) :
  quiet m -> (forall x, quiet (f x)) -> quiet (m ≫= f).
Proof.
  intros Hm Hf w. specialize (Hm w). unfold mbind, M_bind.
  destruct (m w) as [[x|] w1]; [|done].
  eapply quietStep_trans; [exact Hm|]. apply Hf.
Qed.

Lemma quiet_getAddress signer : quiet (getAddress signer).
Proof. intros w. by apply quietStep_record. Qed.

Lemma quiet_estimateGas signer c overrides : quiet (estimateGas signer c overrides).
Proof. intros w. by apply quietStep_record. Qed.

Lemma quiet_wait `{!Provider} tx : quiet (wait tx).
Proof. intros w. by apply quietStep_record. Qed.

Lemma quiet_sendTransaction signer request :
  ~ isRevocation request -> quiet (sendTransaction signer request).
Proof. intros Hreq w. apply quietStep_record. by intros ? ? [= <- _]. Qed.

Lemma quiet_subscribeEach {A B} (project : A -> M (list B)) (xs : list A) :
  (forall x, quiet (project x)) -> quiet (subscribeEach project xs).
Proof.
  intros Hp. induction xs as [|x xs IH]; cbn [subscribeEach]; [apply quiet_ret|].
  apply quiet_bind; [done|]. intros ys. apply quiet_bind; [done|]. intros zs. apply quiet_ret.
Qed.

Lemma quiet_switchMap {A B} (project : A -> M (list B)) (source : M (list A)) :
  quiet source -> (forall x, quiet (project x)) -> quiet (switchMap project source).
Proof. intros Hs Hp. apply quiet_bind; [done|]. intros xs. by apply quiet_subscribeEach. Qed.

Lemma quiet_defer {A} (work : M A) : quiet work -> quiet (defer work).
Proof. intros Hw. apply quiet_bind; [done|]. intros x. apply quiet_ret. Qed.

Lemma quiet_takeLast1 {A} (source : M (list A)) : quiet source -> quiet (takeLast1 source).
Proof. intros Hs. apply quiet_bind; [done|]. intros xs. apply quiet_ret. Qed.

Lemma quiet_defaultIfEmpty {A} (x : A) (source : M (list A)) :
  quiet source -> quiet (defaultIfEmpty x source).
Proof. intros Hs. apply quiet_bind; [done|]. intros xs. apply quiet_ret. Qed.

Lemma quiet_forkJoin2 {A B} (a : M (list A)) (b : M (list B)) :
  quiet a -> quiet b -> quiet (forkJoin2 a b).
Proof. intros Ha Hb. repeat (apply quiet_bind; [done|]; intros ?). apply quiet_ret. Qed.

Lemma quiet_forkJoin3 {A B C} (a : M (list A)) (b : M (list B)) (c : M (list C)) :
  quiet a -> quiet b -> quiet c -> quiet (forkJoin3 a b c).
Proof. intros Ha Hb Hc. repeat (apply quiet_bind; [done|]; intros ?). apply quiet_ret. Qed.

Lemma quiet_forkJoin4 {A B C D} (a : M (list A)) (b : M (list B)) (c : M (list C))
    (d : M (list D)) :
  quiet a -> quiet b -> quiet c -> quiet d -> quiet (forkJoin4 a b c d).
Proof. intros Ha Hb Hc Hd. repeat (apply quiet_bind; [done|]; intros ?). apply quiet_ret. Qed.

Lemma quiet_shareReplay `{Replayable A} (node : string) (source : M (list A)) :
  node <> "claimOwnership$" -> quiet source -> quiet (shareReplay node source).
Proof.
  intros Hnode Hs w. unfold shareReplay.
  destruct (replays w !! node ≫= of_replay); [apply quietStep_refl|].
  specialize (Hs w). destruct (source w) as [[xs|] w1]; [|done].
  eapply quietStep_trans; [exact Hs|].
  exists []. cbn. rewrite app_nil_r. split_and!; [done| |].
  - by intros ? ? ?%elem_of_nil.
  - by rewrite lookup_insert_ne.
Qed.

Lemma quiet_of {A} (x : A) : quiet (of_ x).
Proof. apply quiet_ret. Qed.

Lemma quiet_EMPTY {A} : quiet (@EMPTY A).
Proof. apply quiet_ret. Qed.

Ltac quiet_steps :=
  repeat first
    [ assumption
    | simple apply quiet_ret
    | simple apply quiet_of
    | simple apply quiet_EMPTY
    | simple apply quiet_throw
    | simple apply quiet_liftOption
    | simple apply quiet_getAddress
    | simple apply quiet_estimateGas
    | simple apply quiet_wait
    | simple apply quiet_defer
    | simple apply quiet_takeLast1
    | simple apply quiet_defaultIfEmpty
    | simple apply quiet_bind; [|intros ?]
    | simple apply quiet_switchMap; [|intros ?]
    | simple apply quiet_subscribeEach; intros ?
    | simple apply quiet_forkJoin2
    | simple apply quiet_forkJoin3
    | simple apply quiet_forkJoin4
    | simple apply quiet_shareReplay; [discriminate|]
    | match goal with |- quiet (match ?x with _ => _ end) => destruct x end ].

(** ** The invariants of the handoff *)

Lemma claimConfirmed_app (h l : list Event) : claimConfirmed h -> claimConfirmed (h ++ l).
Proof. intros (tx & r & Hin & Htx). exists tx, r. split; [|done]. apply elem_of_app. by left. Qed.

Lemma revocationAfterClaim_app (h l : list Event) :
  revocationAfterClaim h ->
  (forall request result, EvSend request result ∈ l -> ~ isRevocation request) ->
  revocationAfterClaim (h ++ l).
Proof.
  intros Hh Hl before request result after Heq Hrev.
  apply app_eq_inv in Heq as [(k & -> & Hk)|(k & -> & Hk)].
  - destruct k as [|e k]; cbn in Hk.
    + destruct (Hl request result); [|done]. rewrite <- Hk. by left.
    + injection Hk as <- _. by eapply Hh.
  - destruct (Hl request result); [|done]. rewrite Hk. apply elem_of_app. right. by left.
Qed.

Lemma revocationAfterClaim_confirmed (h l : list Event) :
  revocationAfterClaim h -> claimConfirmed h -> revocationAfterClaim (h ++ l).
Proof.
  intros Hh Hc before request result after Heq Hrev.
  apply app_eq_inv in Heq as [(k & -> & Hk)|(k & -> & Hk)].
  - destruct k as [|e k]; cbn in Hk.
    + by rewrite app_nil_r in Hc.
    + injection Hk as <- _. by eapply Hh.
  - by apply claimConfirmed_app.
Qed.

Lemma Invariant_ordered : Invariant ordered.
Proof.
  split.
  - intros w w' [Hord Hbuf] (l & Hh & Hl & Hr). split.
    + rewrite Hh. by apply revocationAfterClaim_app.
    + intros events. rewrite Hr. apply Hbuf.
  - intros w events [Hord Hbuf] Hevents. split; [done|].
    intros events'. cbn. rewrite lookup_insert_eq. by intros [= <-].
  - by intros w [_ Hbuf].
Qed.

Lemma Invariant_confirmed : Invariant confirmed.
Proof.
  split.
  - intros w w' [Hord Hc] Hstep. split; [by eapply (inv_step _ Invariant_ordered)|].
    destruct Hstep as (l & -> & _). by apply claimConfirmed_app.
  - intros w events [Hord Hc] Hevents. split; [|done].
    by apply (inv_claim _ Invariant_ordered).
  - intros w [Hord _]. by apply (inv_buffer _ Invariant_ordered).
Qed.

Section Keeps.
Context (I : World -> Prop) (HI : Invariant I).

Lemma keeps_quiet {A} (m : M A) : quiet m -> keeps I m (fun _ => True).
Proof. intros Hm w Hw. split; [|done]. eapply inv_step; [done..|]. apply Hm. Qed.

Lemma keeps_weaken {A} (m : M A) (Q Q' : A -> Prop) :
  keeps I m Q -> (forall x, Q x -> Q' x) -> keeps I m Q'.
Proof. intros Hm HQ w Hw. destruct (Hm w Hw) as [? HQx]. split; [done|]. eauto. Qed.

Lemma keeps_ret {A} (x : A) (Q : A -> Prop) : Q x -> keeps I (mret x) Q.
Proof. intros HQ w Hw. split; [done|]. by intros ? [= <-]. Qed.

Lemma keeps_bind {A B} (m : M A) (f : A -> M B) (Q : A -> Prop) (R : B -> Prop) :
  keeps I m Q -> (forall x, Q x -> keeps I (f x) R) -> keeps I (m ≫= f) R.
Proof.
  intros Hm Hf w Hw. destruct (Hm w Hw) as [Hw1 HQ]. unfold mbind, M_bind.
  destruct (m w) as [[x|] w1]; cbn in *; [|done].
  by apply Hf; [apply HQ|].
Qed.

Lemma keeps_subscribeEach {A B} (project : A -> M (list B)) (xs : list A)
    (Q : A -> Prop) (R : B -> Prop) :
  (forall x, Q x -> keeps I (project x) (Forall R)) ->
  Forall Q xs ->
  keeps I (subscribeEach project xs) (Forall R).
Proof.
  intros Hp Hxs. induction Hxs as [|x xs Hx Hxs IH]; cbn [subscribeEach].
  - by apply keeps_ret.
  - eapply keeps_bind; [by apply Hp|]. intros ys Hys.
    eapply keeps_bind; [exact IH|]. intros zs Hzs.
    apply keeps_ret. by apply Forall_app.
Qed.

Lemma keeps_switchMap {A B} (project : A -> M (list B)) (source : M (list A))
    (Q : A -> Prop) (R : B -> Prop) :
  keeps I source (Forall Q) ->
  (forall x, Q x -> keeps I (project x) (Forall R)) ->
  keeps I (switchMap project source) (Forall R).
Proof.
  intros Hs Hp. eapply keeps_bind; [exact Hs|]. intros xs Hxs.
  by eapply keeps_subscribeEach.
Qed.

Lemma keeps_defer {A} (work : M A) (Q : A -> Prop) :
  keeps I work Q -> keeps I (defer work) (Forall Q).
Proof.
  intros Hw. eapply keeps_bind; [exact Hw|]. intros x Hx. apply keeps_ret. by constructor.
Qed.

Lemma keeps_any {A} (m : M (list A)) (Q : list A -> Prop) :
  keeps I m Q -> keeps I m (Forall (fun _ => True)).
Proof. intros Hm. eapply keeps_weaken; [exact Hm|]. intros xs _. by apply Forall_true. Qed.

Lemma keeps_concat_obs {A} (sources : list (M (list A))) :
  Forall (fun source => keeps I source (fun _ => True)) sources ->
  keeps I (concat_obs sources) (fun _ => True).
Proof.
  induction 1 as [|source rest Hs Hrest IH]; cbn [concat_obs].
  - by apply keeps_ret.
  - eapply keeps_bind; [exact Hs|]. intros xs _.
    eapply keeps_bind; [exact IH|]. intros ys _. by apply keeps_ret.
Qed.

Lemma keeps_shareReplay `{Replayable A} (node : string) (source : M (list A))
    (Q : list A -> Prop) :
  node <> "claimOwnership$" ->
  keeps I source Q ->
  keeps I (shareReplay node source) (fun _ => True).
Proof.
  intros Hnode Hs w Hw. split; [|done]. unfold shareReplay.
  destruct (replays w !! node ≫= of_replay); [done|].
  destruct (Hs w Hw) as [Hw1 _]. destruct (source w) as [[xs|] w1]; [|done].
  cbn in *. eapply inv_step; [done..|].
  exists []. cbn. rewrite app_nil_r. split_and!; [done| |].
  - by intros ? ? ?%elem_of_nil.
  - by rewrite lookup_insert_ne.
Qed.

Lemma keeps_shareReplay_claim (source : M (list DeploymentEvent)) :
  keeps I source (Forall claimEvent) ->
  keeps I (shareReplay "claimOwnership$" source) (Forall claimEvent).
Proof.
  intros Hs w Hw. unfold shareReplay.
  destruct (replays w !! "claimOwnership$") as [[events| | |]|] eqn:Hlook; cbn.
  1:{ split; [done|]. intros ? [= <-]. by eapply inv_buffer. }
  all: destruct (Hs w Hw) as [Hw1 HQ]; destruct (source w) as [[xs|] w1]; cbn in *;
    [|done]; (split; [apply inv_claim; auto|by intros ? [= <-]; auto]).
Qed.

End Keeps.

(** ** The service *)

Section Proofs.
Context `{!ERC725, !Config, !Provider}.

(** *** The permission encoder *)

Lemma arrayElementKey_paddedIndex (i : Z) :
  arrayElementKey i =
    (fun padded => Js.slice 0 34 ADDRESS_PERMISSIONS_ARRAY_KEY +:+ Js.substring_from 2 padded)
      <$> paddedIndex i.
Proof.
  unfold arrayElementKey, paddedIndex.
  destruct (Ethers.hexlify [i]) as [h|]; [|done]. cbn.
  by destruct (Ethers.hexZeroPad h 16).
Qed.

Lemma arrayElementKey_is_Some (i : nat) :
  is_Some (arrayElementKey (Z.of_nat i)) <-> (i < 256)%nat.
Proof.
  rewrite arrayElementKey_paddedIndex, fmap_is_Some. split.
  - intros [p Hp]. destruct (decide (i < 256)%nat) as [|Hge]; [done|].
    unfold paddedIndex in Hp. rewrite hexlify_out_of_range in Hp by lia. done.
  - apply paddedIndex_byte.
Qed.

Lemma arrayElements_is_Some {A} (l : list A) :
  is_Some (mapM id (imap (fun index _ => arrayElementKey (Z.of_nat index)) l))
  <-> (length l <= 256)%nat.
Proof.
  rewrite mapM_is_Some, Forall_lookup. split.
  - intros Hall. destruct (decide (length l <= 256)%nat) as [|Hgt]; [done|].
    destruct (lookup_lt_is_Some_2 l 256%nat) as [x Hx]; [lia|].
    specialize (Hall 256%nat (arrayElementKey 256)).
    rewrite list_lookup_imap, Hx in Hall. specialize (Hall eq_refl).
    apply (arrayElementKey_is_Some 256) in Hall. lia.
  - intros Hlen i o Hi. rewrite list_lookup_imap in Hi.
    destruct (l !! i) as [x|] eqn:Hx; [|done]. injection Hi as <-.
    apply lookup_lt_Some in Hx. apply arrayElementKey_is_Some. lia.
Qed.

Lemma abiEncodeUint256_small (n : Z) :
  0 <= n <= 256 -> Ethers.abiEncodeUint256 n = Some ("0x" +:+ Ethers.hexDigits 64 n).
Proof.
  intros Hn. unfold Ethers.abiEncodeUint256.
  assert (Hbig : 256 < 2 ^ 256) by (apply Z.ltb_lt; vm_compute; reflexivity).
  replace (0 <=? n) with true by (symmetry; apply Z.leb_le; lia).
  replace (n <? 2 ^ 256) with true by (symmetry; apply Z.ltb_lt; lia).
  done.
Qed.

(** The three outcomes of the encoder: it throws on the indices, or the
    signer gives no address, or it returns the write set. *)
Lemma prepareSetDataParameters_throws signer acct urd controllers profile w :
  (256 <= length controllers)%nat ->
  prepareSetDataParameters signer acct urd controllers profile w = (None, w).
Proof.
  intros Hlen. unfold prepareSetDataParameters. unfold_M.
  destruct (mapM id _) as [elems|] eqn:Helems; [|done].
  assert (Hle : (length (controllerAddressOf <$> controllers) <= 256)%nat)
    by (apply arrayElements_is_Some; eauto).
  destruct (arrayElementKey _) as [idx|] eqn:Hidx; [|done].
  assert (Hlt : (length (controllerAddressOf <$> controllers) < 256)%nat)
    by (apply arrayElementKey_is_Some; eauto).
  rewrite length_fmap in Hlt. lia.
Qed.

Lemma prepareSetDataParameters_returns signer acct urd controllers profile w a :
  (length controllers <= 255)%nat ->
  signer_getAddress signer (history w) = Some a ->
  exists elems idx keys values,
    mapM id (imap (fun index _ => arrayElementKey (Z.of_nat index))
                  (controllerAddressOf <$> controllers)) = Some elems /\
    arrayElementKey (Z.of_nat (length controllers)) = Some idx /\
    keys =
      [UNIVERSAL_RECEIVER_DELEGATE_KEY;
       PREFIX_PERMISSIONS +:+ Js.substring_from 2 urd;
       ADDRESS_PERMISSIONS_ARRAY_KEY]
      ++ elems
      ++ ((fun address => PREFIX_PERMISSIONS +:+ Js.substring_from 2 address)
            <$> (controllerAddressOf <$> controllers))
      ++ [idx] /\
    values =
      [Some urd;
       Some (encodePermissions [("SUPER_SETDATA", true)]);
       Some ("0x" +:+ Ethers.hexDigits 64 (Z.of_nat (length controllers) + 1))]
      ++ (Some <$> (controllerAddressOf <$> controllers))
      ++ ((fun controller =>
             match controller with
             | ControllerAddress _ => Some (encodePermissions DEFAULT_PERMISSIONS)
             | ControllerOptions _ permissions => permissions
             end) <$> controllers)
      ++ [Some urd] /\
    prepareSetDataParameters signer acct urd controllers profile w =
      (Some {| keysToSet :=
                 (if Js.includes a (controllerAddressOf <$> controllers)
                  then keys
                  else keys ++ [PREFIX_PERMISSIONS +:+ Js.substring_from 2 a])
                 ++ (if Js.truthy profile then [LSP3_PROFILE] else []);
               valuesToSet :=
                 (if Js.includes a (controllerAddressOf <$> controllers)
                  then Js.array_set values
                         (Js.indexOf (PREFIX_PERMISSIONS +:+ Js.substring_from 2 a) keys)
                         (Some (encodePermissions
                                  [("CHANGEOWNER", true); ("CHANGEPERMISSIONS", true)]))
                  else values ++ [Some (encodePermissions
                                          [("CHANGEOWNER", true); ("CHANGEPERMISSIONS", true)])])
                 ++ (if Js.truthy profile then [profile] else []);
               erc725AccountAddress := acct |},
       record (EvGetAddress (Some a)) w).
Proof.
  intros Hlen Ha.
  destruct (proj2 (arrayElements_is_Some (controllerAddressOf <$> controllers)))
    as [elems Helems]; [rewrite length_fmap; lia|].
  destruct (proj2 (arrayElementKey_is_Some (length controllers))) as [idx Hidx]; [lia|].
  eexists elems, idx, _, _. do 4 (split; [done|]).
  unfold prepareSetDataParameters. unfold_M.
  rewrite Helems, !length_fmap, Hidx, abiEncodeUint256_small by lia.
  unfold_M. cbn beta iota. unfold getAddress. rewrite Ha. cbn beta iota.
  destruct (Js.includes a _); cbn [negb];
    destruct (Js.truthy profile); rewrite ?app_nil_r; reflexivity.
Qed.

Lemma prepareSetDataParameters_rejects signer acct urd controllers profile w :
  (length controllers <= 255)%nat ->
  signer_getAddress signer (history w) = None ->
  prepareSetDataParameters signer acct urd controllers profile w =
    (None, record (EvGetAddress None) w).
Proof.
  intros Hlen Ha.
  destruct (proj2 (arrayElements_is_Some (controllerAddressOf <$> controllers)))
    as [elems Helems]; [rewrite length_fmap; lia|].
  destruct (proj2 (arrayElementKey_is_Some (length controllers))) as [idx Hidx]; [lia|].
  unfold prepareSetDataParameters. unfold_M.
  rewrite Helems, !length_fmap, Hidx, abiEncodeUint256_small by lia.
  unfold_M. cbn beta iota. unfold getAddress. by rewrite Ha.
Qed.

Lemma length_arrayElements {A} (l : list A) elems :
  mapM id (imap (fun index _ => arrayElementKey (Z.of_nat index)) l) = Some elems ->
  length elems = length l /\
  forall i : nat, (i < length l)%nat -> arrayElementKey (Z.of_nat i) = elems !! i.
Proof.
  intros Helems. apply mapM_Some in Helems.
  pose proof (Forall2_length _ _ _ Helems) as Hlen. rewrite length_imap in Hlen.
  split; [done|]. intros i Hi.
  destruct (lookup_lt_is_Some_2 l i Hi) as [x Hx].
  destruct (lookup_lt_is_Some_2 elems i) as [e He]; [lia|].
  rewrite He.
  eapply Forall2_lookup_lr in Helems; [| |exact He].
  2:{ rewrite list_lookup_imap, Hx. reflexivity. }
  exact Helems.
Qed.

(** C4.  Whatever the inputs, the write set that [prepareSetDataParameters]
    produces has as many keys as values: in the branch that appends the
    signer's entry, in the branch that overwrites it, with or without profile
    data.  A write set is produced whenever there are at most 255 controllers
    and the signer gives its address. *)
Theorem keysToSet_valuesToSet_aligned signer acct urd controllers profile w :
  ((length controllers <= 255)%nat -> is_Some (signer_getAddress signer (history w)) ->
   is_Some (prepareSetDataParameters signer acct urd controllers profile w).1) /\
  forall r,
    (prepareSetDataParameters signer acct urd controllers profile w).1 = Some r ->
    length (keysToSet r) = length (valuesToSet r).
Proof.
  destruct (decide (length controllers <= 255)%nat) as [Hlen|Hlen].
  2:{ rewrite prepareSetDataParameters_throws by lia. split; [lia|done]. }
  destruct (signer_getAddress signer (history w)) as [a|] eqn:Ha.
  2:{ rewrite prepareSetDataParameters_rejects by done. split; [by intros _ [? ?]|done]. }
  destruct (prepareSetDataParameters_returns signer acct urd controllers profile w a Hlen Ha)
    as (elems & idx & keys & values & Helems & Hidx & Hkeys & Hvalues & Hrun).
  rewrite Hrun. split; [eauto|].
  intros r [= <-]. cbn [keysToSet valuesToSet].
  apply length_arrayElements in Helems as [Hlen_elems _]. rewrite !length_fmap in Hlen_elems.
  assert (Haligned : length keys = length values).
  { subst keys values. rewrite !length_app, !length_fmap. cbn [length]. lia. }
  rewrite !length_app. f_equal.
  - destruct (Js.includes a _).
    + rewrite length_array_set; [done|]. rewrite <- Haligned. apply indexOf_lt.
    + rewrite !length_app. cbn [length]. lia.
  - by destruct (Js.truthy profile).
Qed.

(** C10.  An array-element key embeds its index as one byte, padded with
    zeros to 16 bytes, and there is no key for an index of 256 or more,
    because [hexlify] refuses an element that is not a byte.  So with 256
    controllers or more the encoder throws while deriving the keys, before it
    asks the signer for its address: no write set is produced and the world
    is left as it was. *)
Theorem prepareSetDataParameters_at_most_255_controllers
    signer acct urd controllers profile w :
  (forall index : nat,
     (index < 256)%nat ->
     arrayElementKey (Z.of_nat index) =
       Some (Js.slice 0 34 ADDRESS_PERMISSIONS_ARRAY_KEY
             +:+ Ethers.zeros 30 +:+ Ethers.hexDigits 2 (Z.of_nat index))) /\
  (forall index : Z, 256 <= index -> arrayElementKey index = None) /\
  ((256 <= length controllers)%nat ->
   prepareSetDataParameters signer acct urd controllers profile w = (None, w)).
Proof.
  split_and!.
  - intros index Hindex. rewrite arrayElementKey_paddedIndex, paddedIndex_value by done.
    reflexivity.
  - intros index Hindex. unfold arrayElementKey. by rewrite hexlify_out_of_range.
  - apply prepareSetDataParameters_throws.
Qed.

(** C5.  Two runs of the encoder on the same account, delegate, controllers
    and profile bytes, by signers that give the same address, return the same
    thing: the same keys and the same values, or the same failure.  Nothing
    else of the signer or of the world is consulted. *)
Theorem prepareSetDataParameters_deterministic
    signer1 signer2 w1 w2 acct urd controllers profile :
  signer_getAddress signer1 (history w1) = signer_getAddress signer2 (history w2) ->
  (prepareSetDataParameters signer1 acct urd controllers profile w1).1 =
  (prepareSetDataParameters signer2 acct urd controllers profile w2).1.
Proof.
  intros Hsame.
  destruct (decide (length controllers <= 255)%nat) as [Hlen|Hlen].
  2:{ by rewrite !prepareSetDataParameters_throws by lia. }
  destruct (signer_getAddress signer1 (history w1)) as [a|] eqn:Ha1; symmetry in Hsame.
  2:{ by rewrite !prepareSetDataParameters_rejects by done. }
  destruct (prepareSetDataParameters_returns signer1 acct urd controllers profile w1 a Hlen Ha1)
    as (elems1 & idx1 & keys1 & values1 & Helems1 & Hidx1 & -> & -> & Hrun1).
  destruct (prepareSetDataParameters_returns signer2 acct urd controllers profile w2 a Hlen Hsame)
    as (elems2 & idx2 & keys2 & values2 & Helems2 & Hidx2 & -> & -> & Hrun2).
  rewrite Hrun1, Hrun2.
  rewrite Helems1 in Helems2. rewrite Hidx1 in Hidx2.
  injection Helems2 as <-. injection Hidx2 as <-. reflexivity.
Qed.

(** C3, as amended.  For N controllers (N <= 255), none of them the signer,
    the encoder returns a write set whose keys are, in order: the delegate
    key, the delegate's mapping key and the array key; the N array-element
    keys of the indices 0 .. N-1; the N mapping keys of the controllers; the
    array-element key of index N, for the delegate; the signer's mapping key;
    and the profile key when profile data are given.  Beyond the delegate key
    and the array key that makes 2 N + 3 pairs.  Keys and values are aligned,
    and the value under the array key is the 32-byte word of N + 1. *)
Theorem signer_absent_write_set signer acct urd controllers profile w a :
  (length controllers <= 255)%nat ->
  signer_getAddress signer (history w) = Some a ->
  a ∉ (controllerAddressOf <$> controllers) ->
  exists r indexKeys delegateIndexKey arrayLength,
    (prepareSetDataParameters signer acct urd controllers profile w).1 = Some r /\
    length indexKeys = length controllers /\
    (forall i : nat, (i < length controllers)%nat ->
       arrayElementKey (Z.of_nat i) = indexKeys !! i) /\
    arrayElementKey (Z.of_nat (length controllers)) = Some delegateIndexKey /\
    keysToSet r =
      [UNIVERSAL_RECEIVER_DELEGATE_KEY;
       PREFIX_PERMISSIONS +:+ Js.substring_from 2 urd;
       ADDRESS_PERMISSIONS_ARRAY_KEY]
      ++ indexKeys
      ++ ((fun c => PREFIX_PERMISSIONS +:+ Js.substring_from 2 (controllerAddressOf c))
            <$> controllers)
      ++ [delegateIndexKey]
      ++ [PREFIX_PERMISSIONS +:+ Js.substring_from 2 a]
      ++ (if Js.truthy profile then [LSP3_PROFILE] else []) /\
    length (keysToSet r) =
      (2 + (2 * length controllers + 3) + (if Js.truthy profile then 1 else 0))%nat /\
    length (valuesToSet r) = length (keysToSet r) /\
    valuesToSet r !! 2%nat = Some (Some arrayLength) /\
    Ethers.hexToNumber arrayLength = Z.of_nat (length controllers) + 1.
Proof.
  intros Hlen Ha Hnotin.
  destruct (prepareSetDataParameters_returns signer acct urd controllers profile w a Hlen Ha)
    as (elems & idx & keys & values & Helems & Hidx & Hkeys & Hvalues & Hrun).
  assert (Hincl : Js.includes a (controllerAddressOf <$> controllers) = false)
    by (unfold Js.includes; by apply bool_decide_eq_false).
  rewrite Hincl in Hrun.
  apply length_arrayElements in Helems as [Hlen_elems Hlook]. rewrite !length_fmap in *.
  eexists _, elems, idx, _. split; [rewrite Hrun; reflexivity|].
  cbn [keysToSet valuesToSet].
  split; [done|]. split; [done|]. split; [done|].
  assert (Hk : (keys ++ [PREFIX_PERMISSIONS +:+ Js.substring_from 2 a]) ++
               (if Js.truthy profile then [LSP3_PROFILE] else []) =
     [UNIVERSAL_RECEIVER_DELEGATE_KEY;
       PREFIX_PERMISSIONS +:+ Js.substring_from 2 urd;
       ADDRESS_PERMISSIONS_ARRAY_KEY]
      ++ elems
      ++ ((fun c => PREFIX_PERMISSIONS +:+ Js.substring_from 2 (controllerAddressOf c))
            <$> controllers)
      ++ [idx]
      ++ [PREFIX_PERMISSIONS +:+ Js.substring_from 2 a]
      ++ (if Js.truthy profile then [LSP3_PROFILE] else [])).
  { rewrite Hkeys, <- list_fmap_compose, <- !app_assoc. reflexivity. }
  split; [exact Hk|].
  assert (Hlk : length ((keys ++ [PREFIX_PERMISSIONS +:+ Js.substring_from 2 a]) ++
               (if Js.truthy profile then [LSP3_PROFILE] else [])) =
          (2 + (2 * length controllers + 3) + (if Js.truthy profile then 1 else 0))%nat).
  { rewrite Hk, !length_app, length_fmap, Hlen_elems.
    destruct (Js.truthy profile); cbn [length]; lia. }
  split; [exact Hlk|].
  split.
  { rewrite Hlk, Hvalues, !length_app, !length_fmap.
    destruct (Js.truthy profile); cbn [length]; lia. }
  split.
  { rewrite Hvalues. reflexivity. }
  apply hexToNumber_word.
  assert (Hbig : 256 < 2 ^ 256) by (apply Z.ltb_lt; vm_compute; reflexivity). lia.
Qed.


(** *** The existing-identity probe *)

(** C9.  The probe never throws.  It answers [true] exactly when the first
    [supportsInterface] call answers [true], or answers [false] and the
    second one answers [true]; when either call throws the answer is
    [false]. *)
Theorem addressIsUniversalProfile_total address signer w :
  let supportsInterface interfaceId :=
    {| target := address; fn := "supportsInterface"; args := [AString interfaceId] |} in
  let first := signer_call signer (history w) (supportsInterface ERC725_ACCOUNT_INTERFACE) in
  let second :=
    signer_call signer
      (history w ++ [EvCall (supportsInterface ERC725_ACCOUNT_INTERFACE) first])
      (supportsInterface "0x63cb749b") in
  (addressIsUniversalProfile address signer w).1 =
    Some (match first with
          | Some true => true
          | Some false => match second with Some answer => answer | None => false end
          | None => false
          end).
Proof.
  intros supportsInterface first second. unfold addressIsUniversalProfile. run_M.
  fold (supportsInterface ERC725_ACCOUNT_INTERFACE). fold first.
  destruct first as [[|]|]; cbn; [done| |done].
  fold (supportsInterface "0x63cb749b"). fold second.
  by destruct second.
Qed.

(** *** Gas of the handoff transactions *)




(** [controllers[controllerAddress.indexOf(signerAddress)]] is the first
    controller with the signer's address. *)
Lemma signerPermissionOf_first (a : string) (controllers : list Controller) :
  signerPermissionOf a controllers =
    Some match list_find (fun controller => controllerAddressOf controller = a) controllers with
         | Some (_, ControllerOptions _ (Some permissions)) => permissions
         | Some (_, ControllerOptions _ None) => encodePermissions DEFAULT_PERMISSIONS
         | Some (_, ControllerAddress _) => encodePermissions DEFAULT_PERMISSIONS
         | None => encodePermissions []
         end.
Proof.
  unfold signerPermissionOf, Js.includes.
  destruct (list_find _ controllers) as [[k c]|] eqn:Hfind.
  - apply list_find_Some in Hfind as (Hlook & Hc & Hfirst).
    assert (Hin : a ∈ controllerAddressOf <$> controllers).
    { rewrite <- Hc. apply list_elem_of_fmap_2. by eapply list_elem_of_lookup_2. }
    rewrite bool_decide_eq_true_2 by done.
    destruct (indexOf_elem a _ Hin) as (k' & -> & Hlook' & Hfirst').
    rewrite Nat2Z.id.
    assert (k' = k) as ->.
    { destruct (Nat.lt_trichotomy k' k) as [Hlt|[Heq|Hgt]]; [|done|].
      - rewrite list_lookup_fmap in Hlook'.
        destruct (controllers !! k') as [c'|] eqn:Hc'; [|done].
        injection Hlook' as Hc''. by destruct (Hfirst k' c' Hc' Hlt).
      - destruct (Hfirst' k Hgt). by rewrite list_lookup_fmap, Hlook, <- Hc. }
    rewrite Hlook. cbn. by destruct c as [|? [|]].
  - apply list_find_None in Hfind.
    rewrite bool_decide_eq_false_2; [done|].
    intros (c & Hc & Hin)%list_elem_of_fmap_1.
    rewrite Forall_forall in Hfind. by destruct (Hfind c Hin).
Qed.

(** C6.  The revocation writes, under the signer's mapping key, the
    permissions of the first controller that has the signer's address: the
    permissions given with it when it is an object with permissions, the
    encoding of the default permissions when it is a raw address or an object
    without permissions; and the encoding of the empty permission set when no
    controller has the signer's address.  The step asks for the address,
    estimates [execute] of that write and, when the estimate comes back,
    submits it. *)
Theorem revokeSignerPermissions_value signer keyManagerAddress erc725AccountAddress
    controllers w a :
  signer_getAddress signer (history w) = Some a ->
  let signerPermission :=
    match list_find (fun controller => controllerAddressOf controller = a) controllers with
    | Some (_, ControllerOptions _ (Some permissions)) => permissions
    | Some (_, ControllerOptions _ None) => encodePermissions DEFAULT_PERMISSIONS
    | Some (_, ControllerAddress _) => encodePermissions DEFAULT_PERMISSIONS
    | None => encodePermissions []
    end in
  let execute :=
    {| target := keyManagerAddress;
       fn := "execute";
       args := [APayload (FunctionData "setData(bytes32,bytes)"
                            [PREFIX_PERMISSIONS +:+ Js.substring_from 2 a;
                             signerPermission])] |} in
  let overrides := {| from := Some a; gasLimit := None; gasPrice := None |} in
  let estimate :=
    signer_estimateGas signer (history w ++ [EvGetAddress (Some a)]) execute overrides in
  exists submission,
    trace (revokeSignerPermissions signer keyManagerAddress erc725AccountAddress controllers) w =
      [EvGetAddress (Some a); EvEstimateGas execute overrides estimate] ++ submission /\
    match estimate with
    | Some gas =>
        exists result,
          submission =
            [EvSend (CallRequest execute
                       {| from := Some a;
                          gasLimit := Some (gas + GAS_BUFFER);
                          gasPrice := Some GAS_PRICE |})
                    result]
    | None => submission = []
    end.
Proof.
  intros Ha signerPermission execute overrides estimate.
  unfold trace, revokeSignerPermissions. run_M. rewrite Ha. run_M.
  rewrite signerPermissionOf_first. run_M.
  fold signerPermission. fold execute. fold overrides. fold estimate.
  destruct estimate as [gas|]; run_M.
  - destruct (signer_sendTransaction _ _ _) as [sent|]; run_M;
      rewrite <- ?app_assoc, drop_app_length; cbn [app]; eauto.
  - rewrite <- ?app_assoc, drop_app_length. cbn [app]. eauto.
Qed.


(** *** Account creation *)

(** C8.  The two modes of account creation, from a world in which the nodes
    of the creation have buffered nothing.  With a base contract address the
    only contract created has the proxy code derived from that address, the
    only other submission is [initialize(address)] on the created proxy, and a
    run that succeeds consists of the creation, its receipt, the
    initialization and its receipt.  Without one, the only submission is the
    creation of the full contract (the given bytecode, or the default one)
    with the signer's address as constructor argument; no call is submitted,
    and a run that succeeds consists of the creation and its receipt. *)
Theorem account_creation_modes signer baseContractAddress bytecode w :
  replays w !! "accountDeployment$" = None ->
  replays w !! "accountDeploymentReceipt$" = None ->
  replays w !! "accountDeploymentInitialize$" = None ->
  replays w !! "accountDeploymentInitializeReceipt$" = None ->
  let creation :=
    accountDeploymentWithBaseContractAddress_obs signer baseContractAddress bytecode in
  if Js.truthy baseContractAddress then
    let proxyCode := getProxyByteCode (Js.string_of baseContractAddress) in
    (forall request result,
       EvSend request result ∈ trace creation w ->
       (exists owner, request = DeployRequest proxyCode [owner]) \/
       (exists proxy owner,
          request = CallRequest {| target := proxy;
                                   fn := "initialize(address)";
                                   args := [AString owner] |} noOverrides)) /\
    (forall events,
       (creation w).1 = Some events ->
       exists owner deployment r proxy owner' initialization r',
         contractAddress r = Some proxy /\
         trace creation w =
           [EvGetAddress (Some owner);
            EvSend (DeployRequest proxyCode [owner]) (Some deployment);
            EvWait deployment (Some r);
            EvGetAddress (Some owner');
            EvSend (CallRequest {| target := proxy;
                                   fn := "initialize(address)";
                                   args := [AString owner'] |} noOverrides)
                   (Some initialization);
            EvWait initialization (Some r')] /\
         type <$> events = [PROXY; PROXY; TRANSACTION; TRANSACTION] /\
         status <$> events = [PENDING; COMPLETE; PENDING; COMPLETE])
  else
    let fullCode :=
      if Js.truthy bytecode then Js.string_of bytecode else UniversalProfile_bytecode in
    (forall request result,
       EvSend request result ∈ trace creation w ->
       exists owner, request = DeployRequest fullCode [owner]) /\
    (forall events,
       (creation w).1 = Some events ->
       exists owner deployment r,
         trace creation w =
           [EvGetAddress (Some owner);
            EvSend (DeployRequest fullCode [owner]) (Some deployment);
            EvWait deployment (Some r)] /\
         type <$> events = [CONTRACT; CONTRACT] /\
         status <$> events = [PENDING; COMPLETE]).
Proof.
  intros F1 F2 F3 F4 creation. subst creation.
  unfold trace, accountDeploymentWithBaseContractAddress_obs, initializeProxy, initialize,
    waitForReceipt, deployLSP3Account, deployProxyContract, deployContract,
    ContractFactory_deploy.
  destruct (Js.truthy baseContractAddress).
  - cbv zeta. execute;
      rewrite <- ?app_assoc, drop_app_length; cbn [app];
      (split;
       [ intros request result Hin; elem_cases Hin; injection Hin as -> ->; eauto
       | intros events Hevents; try discriminate Hevents;
         injection Hevents as <-; eexists _, _, _, _, _, _, _;
         (split; [|split_and!; reflexivity]); reflexivity ]).
  - cbv zeta. destruct (Js.truthy bytecode); execute;
      rewrite <- ?app_assoc, drop_app_length; cbn [app];
      (split;
       [ intros request result Hin; elem_cases Hin; injection Hin as -> ->; eauto
       | intros events Hevents; try discriminate Hevents;
         injection Hevents as <-; eexists _, _, _; split_and!; reflexivity ]).
Qed.

(** *** The order of the handoff *)

Lemma quiet_waitForBatchedPendingTransactions (source : M (list (list DeploymentEvent))) :
  quiet source -> quiet (waitForBatchedPendingTransactions source).
Proof. intros Hs. unfold waitForBatchedPendingTransactions. quiet_steps. Qed.

Lemma quiet_prepareSetDataParameters signer acct urd controllers profile :
  quiet (prepareSetDataParameters signer acct urd controllers profile).
Proof.
  unfold prepareSetDataParameters. quiet_steps.
Qed.

Lemma quiet_sendSetDataAndTransferOwnershipTransactions signer acct keys values km :
  quiet (sendSetDataAndTransferOwnershipTransactions signer acct keys values km).
Proof.
  unfold sendSetDataAndTransferOwnershipTransactions. quiet_steps;
    apply quiet_sendTransaction; intros (? & ? & ? & ? & [=]).
Qed.

Lemma quiet_claimOwnership signer acct km : quiet (claimOwnership signer acct km).
Proof.
  unfold claimOwnership. quiet_steps.
  apply quiet_sendTransaction. intros (? & ? & ? & ? & [=]).
Qed.

Lemma quiet_prepareTransferOwnershipTransaction_obs
    (account keyManager : M (list DeploymentEvent)) (isProfile : M (list bool)) :
  quiet account -> quiet keyManager -> quiet isProfile ->
  quiet (prepareTransferOwnershipTransaction_obs account keyManager isProfile).
Proof.
  intros Ha Hk Hp. unfold prepareTransferOwnershipTransaction_obs. quiet_steps.
Qed.

Lemma quiet_prepareSetDataTransaction_obs signer
    (account universalReceiver : M (list DeploymentEvent)) controllers
    (profile : M (list (option string))) (isProfile : M (list bool)) defaultDelegate :
  quiet account -> quiet universalReceiver -> quiet profile -> quiet isProfile ->
  quiet (prepareSetDataTransaction_obs signer account universalReceiver controllers
           profile isProfile defaultDelegate).
Proof.
  intros Ha Hu Hp Hi. unfold prepareSetDataTransaction_obs. quiet_steps.
  apply quiet_prepareSetDataParameters.
Qed.

Lemma keeps_quiet_yields (I : World -> Prop) {A} (m : M A) (Q : A -> Prop) :
  Invariant I -> quiet m -> yields m Q -> keeps I m Q.
Proof.
  intros HI Hq Hy w Hw. split; [|by apply Hy].
  eapply inv_step; [done..|]. apply Hq.
Qed.

Lemma yields_claimOwnership signer acct km : yields (claimOwnership signer acct km) claimEvent.
Proof.
  intros w deploymentEvent. unfold claimOwnership. run_M.
  destruct (signer_getAddress _ _); run_M; [|done].
  destruct (signer_estimateGas _ _ _ _); run_M; [|done].
  destruct (signer_sendTransaction _ _ _); run_M; [|done].
  intros [= <-]. eexists. split; [reflexivity|]. by eexists _, _.
Qed.

Lemma keeps_waitForReceipt (I : World -> Prop) (source : M (list DeploymentEvent))
    (Q : list DeploymentEvent -> Prop) :
  Invariant I -> keeps I source Q -> keeps I (waitForReceipt source) (fun _ => True).
Proof.
  intros HI Hs. unfold waitForReceipt.
  eapply keeps_weaken; [|done].
  eapply (keeps_switchMap I _ _ (fun _ => True) (fun _ => True)).
  - by eapply keeps_any.
  - intros deploymentEvent _. eapply keeps_any. apply keeps_quiet; [done|]. quiet_steps.
Qed.

(** Waiting for the receipts of claim-ownership events: when anything is
    emitted, a claim-ownership receipt has been observed. *)
Lemma waitForReceipt_confirms (events : list DeploymentEvent) (w : World) :
  Forall claimEvent events ->
  let waiting :=
    subscribeEach (fun deploymentEvent =>
      defer (tx ← liftOption (transaction deploymentEvent);
             r ← wait tx;
             mret (completed deploymentEvent r))) events w in
  forall completedEvents,
    waiting.1 = Some completedEvents -> completedEvents <> [] ->
    claimConfirmed (history waiting.2).
Proof.
  intros Hevents. destruct Hevents as [|deploymentEvent events (tx & Htx & Hclaim) Hevents].
  - cbn. by intros ? [= <-].
  - cbn [subscribeEach]. unfold defer. run_M. rewrite Htx. run_M.
    destruct (waitForTransaction _ _) as [r|] eqn:Hwait; run_M; [|done].
    set (w1 := {| history := history w ++ [EvWait tx (Some r)]; replays := replays w |}).
    assert (Hq : quiet (subscribeEach (fun deploymentEvent =>
      defer (tx ← liftOption (transaction deploymentEvent);
             r ← wait tx;
             mret (completed deploymentEvent r))) events)) by quiet_steps.
    destruct (Hq w1) as (l & Hl & _). unfold defer in Hl. run_M.
    destruct (subscribeEach _ events w1) as [[rest|] w2]; run_M; [|done].
    intros ? _ _. cbn in Hl. rewrite Hl. apply claimConfirmed_app.
    exists tx, r. split; [|done]. subst w1. cbn. apply elem_of_app. right. by left.
Qed.

Lemma keeps_revokeSignerPermissions signer km acct controllers :
  keeps confirmed (revokeSignerPermissions signer km acct controllers) (fun _ => True).
Proof.
  pose proof Invariant_confirmed as HI.
  unfold revokeSignerPermissions.
  eapply keeps_bind; [apply keeps_quiet; [done|quiet_steps]|]. intros a _.
  eapply keeps_bind; [apply keeps_quiet; [done|quiet_steps]|]. intros p _.
  eapply keeps_bind; [apply keeps_quiet; [done|quiet_steps]|]. intros e _.
  eapply (keeps_bind _ _ _ (fun _ => True)).
  - intros w [[Hord Hbuf] Hc]. split; [|done]. unfold sendTransaction. cbn.
    split; [split|]; [|done|].
    + by apply revocationAfterClaim_confirmed.
    + by apply claimConfirmed_app.
  - intros pending _.
    eapply keeps_bind; [apply keeps_quiet; [done|quiet_steps]|]. intros tx _.
    by apply keeps_ret.
Qed.

(** C1.  When the observables handed to the handoff are quiet, and the run
    starts from a history in which every revocation already follows a claim
    receipt and from an empty [claimOwnership$] buffer, then in the history
    the run leaves, whatever the signer and the chain answer, every submission
    of the revocation comes after an observed receipt of a claim-ownership
    transaction. *)
Theorem revocation_only_after_claim_receipt (signer : Signer)
    (account_obs universalReceiver_obs : M (list DeploymentEvent))
    (controllerAddresses : list Controller)
    (lsp3ProfileData_obs : M (list (option string)))
    (isSignerUniversalProfile_obs : M (list bool))
    (keyManagerDeployment_obs : M (list DeploymentEvent))
    (defaultUniversalReceiverDelegateAddress : option string) (w : World) :
  quiet account_obs ->
  quiet universalReceiver_obs ->
  quiet lsp3ProfileData_obs ->
  quiet isSignerUniversalProfile_obs ->
  quiet keyManagerDeployment_obs ->
  revocationAfterClaim (history w) ->
  replays w !! "claimOwnership$" = None ->
  revocationAfterClaim
    (history
       (setDataAndTransferOwnershipTransactions_obs signer account_obs
          universalReceiver_obs controllerAddresses lsp3ProfileData_obs
          isSignerUniversalProfile_obs keyManagerDeployment_obs
          defaultUniversalReceiverDelegateAddress w).2).
Proof.
  intros Haccount Hreceiver Hprofile HisProfile HkeyManager Hordered Hfresh.
  pose proof Invariant_ordered as HI.
  unfold setDataAndTransferOwnershipTransactions_obs.
  set (setDataParameters_obs := prepareSetDataTransaction_obs _ _ _ _ _ _ _).
  set (transferOwnershipParameters_obs := prepareTransferOwnershipTransaction_obs _ _ _).
  set (pending_obs := shareReplay "pendingSetDataAndTransferOwnershipArray$" _).
  set (batch_obs := waitForBatchedPendingTransactions pending_obs).
  set (claimOwnership_obs := shareReplay "claimOwnership$" _).
  set (revoke_obs := shareReplay "revokeSignerPermissions$" _).
  assert (HsetData : quiet setDataParameters_obs)
    by by apply quiet_prepareSetDataTransaction_obs.
  assert (Htransfer : quiet transferOwnershipParameters_obs)
    by by apply quiet_prepareTransferOwnershipTransaction_obs.
  assert (Hpending : quiet pending_obs).
  { subst pending_obs. quiet_steps.
    apply quiet_sendSetDataAndTransferOwnershipTransactions. }
  assert (Hbatch : quiet batch_obs)
    by by apply quiet_waitForBatchedPendingTransactions.
  assert (Hclaim : forall I, Invariant I -> keeps I claimOwnership_obs (Forall claimEvent)).
  { intros I HII. subst claimOwnership_obs. apply keeps_shareReplay_claim; [done|].
    eapply (keeps_switchMap I _ _ (fun _ => True)).
    - eapply keeps_any. by apply keeps_quiet.
    - intros transferOwnershipParameters _.
      eapply (keeps_switchMap I _ _ (fun _ => True)).
      + eapply keeps_any. apply keeps_quiet; [done|]. quiet_steps.
      + intros _ _. apply keeps_defer.
        apply keeps_quiet_yields; [done| |].
        * apply quiet_claimOwnership.
        * apply yields_claimOwnership. }
  assert (Hreceipt : keeps ordered (waitForReceipt claimOwnership_obs) (fun _ => True)).
  { eapply keeps_waitForReceipt; [done|]. by apply Hclaim. }
  assert (Hrevoke : keeps ordered revoke_obs (fun _ => True)).
  { subst revoke_obs. eapply keeps_shareReplay; [done|discriminate|].
    eapply (keeps_switchMap ordered _ _ (fun _ => True) (fun _ => True)).
    - eapply keeps_any. apply keeps_quiet; [done|]. quiet_steps.
    - intros [setDataParameters transferOwnershipParameters] _ w0 Hw0.
      unfold switchMap at 1, waitForReceipt, switchMap. run_M.
      destruct (Hclaim ordered HI w0 Hw0) as [Hw1 Hevents].
      destruct (claimOwnership_obs w0) as [[events|] w1]; cbn in *; [|done].
      specialize (Hevents events eq_refl).
      pose proof (waitForReceipt_confirms events w1 Hevents) as Hconfirms.
      assert (Hwaiting : keeps ordered
        (subscribeEach (fun deploymentEvent =>
           defer (tx ← liftOption (transaction deploymentEvent);
                  r ← wait tx;
                  mret (completed deploymentEvent r))) events) (fun _ => True)).
      { apply keeps_quiet; [done|]. quiet_steps. }
      destruct (Hwaiting w1 Hw1) as [Hw2 _].
      cbv zeta in Hconfirms. unfold defer in *. run_M.
      destruct (subscribeEach _ events w1) as [[completedEvents|] w2]; cbn in *; [|done].
      destruct completedEvents as [|completedEvent completedEvents].
      { cbn. split; [done|]. intros ? [= <-]. constructor. }
      assert (Hw2' : confirmed w2)
        by (split; [done|]; eapply Hconfirms; [reflexivity|discriminate]).
      assert (Hrevocations : keeps confirmed
        (subscribeEach (fun _ : DeploymentEvent =>
           defer (revokeSignerPermissions signer
                    (keyManagerAddress transferOwnershipParameters)
                    (erc725AccountAddress setDataParameters) controllerAddresses))
           (completedEvent :: completedEvents)) (Forall (fun _ => True))).
      { eapply (keeps_subscribeEach confirmed _ _ (fun _ => True)).
        - intros _ _. apply keeps_defer. apply keeps_revokeSignerPermissions.
        - by apply Forall_true. }
      destruct (Hrevocations w2 Hw2') as [[Hfinal _] _]. unfold defer in *. run_M.
      split; [exact Hfinal|]. intros ? _. by apply Forall_true. }
  assert (Hall : keeps ordered
    (concat_obs [batch_obs; claimOwnership_obs; waitForReceipt claimOwnership_obs;
                 revoke_obs; waitForReceipt revoke_obs]) (fun _ => True)).
  { apply keeps_concat_obs. repeat apply Forall_cons_2; [| | | | |apply Forall_nil_2].
    - by apply keeps_quiet.
    - eapply keeps_weaken; [by apply Hclaim|done].
    - done.
    - done.
    - by eapply keeps_waitForReceipt. }
  apply Hall. split; [done|]. intros events. by rewrite Hfresh.
Qed.

End Proofs.

(** ** The definitions at work in the sample world *)

#[local] Existing Instance LSP6.erc725.
#[local] Existing Instance LSP6.config.
#[local] Existing Instance Sample.provider.

(** The write set of the sample run: one controller, the signer absent. *)
Example sample_write_set :
  (prepareSetDataParameters Sample.signer Sample.accountAddress Sample.delegateAddress
     [ControllerAddress Sample.otherAddress] None Sample.world).1 =
  Some {|
    keysToSet :=
      ["0x0cfc51aec37c55a4d0b1a65c6255c4bf2fbdf6277f3cc0730c45b828b6db8b47";
       "0x4b80742d0000000082ac00009fE46736679d2D9a65F0992F2272dE9f3c7fa6e0";
       "0xdf30dba06db6a30e65354d9a64c609861f089545ca58c6b4dbe31a5f338cb0e3";
       "0xdf30dba06db6a30e65354d9a64c6098600000000000000000000000000000000";
       "0x4b80742d0000000082ac000070997970C51812dc3A010C7d01b50e0d17dc79C8";
       "0xdf30dba06db6a30e65354d9a64c6098600000000000000000000000000000001";
       "0x4b80742d0000000082ac0000f39Fd6e51aad88F6F4ce6aB8827279cffFb92266"];
    valuesToSet :=
      [Some "0x9fE46736679d2D9a65F0992F2272dE9f3c7fa6e0";
       Some "0x0000000000000000000000000000000000000000000000000000000000000400";
       Some "0x0000000000000000000000000000000000000000000000000000000000000002";
       Some "0x70997970C51812dc3A010C7d01b50e0d17dc79C8";
       Some "0x00000000000000000000000000000000000000000000000000000000000003fa";
       Some "0x9fE46736679d2D9a65F0992F2272dE9f3c7fa6e0";
       Some "0x0000000000000000000000000000000000000000000000000000000000000003"];
    erc725AccountAddress := Sample.accountAddress
  |}.
Proof. vm_compute. reflexivity. Qed.

Lemma keysToSet_valuesToSet_aligned_witness :
  exists r,
    (prepareSetDataParameters Sample.signer Sample.accountAddress Sample.delegateAddress
       [ControllerAddress Sample.otherAddress] (Some "0x6f357c6a") Sample.world).1 = Some r /\
    length (keysToSet r) = length (valuesToSet r).
Proof.
  eexists. split; [vm_compute; reflexivity|].
  apply (proj2 (keysToSet_valuesToSet_aligned Sample.signer Sample.accountAddress
                  Sample.delegateAddress [ControllerAddress Sample.otherAddress]
                  (Some "0x6f357c6a") Sample.world)).
  vm_compute. reflexivity.
Defined.

Lemma prepareSetDataParameters_at_most_255_controllers_witness :
  (256 <= length (replicate 256 (ControllerAddress Sample.otherAddress)))%nat /\
  prepareSetDataParameters Sample.signer Sample.accountAddress Sample.delegateAddress
    (replicate 256 (ControllerAddress Sample.otherAddress)) None Sample.world
  = (None, Sample.world).
Proof.
  assert (Hlen : (256 <= length (replicate 256 (ControllerAddress Sample.otherAddress)))%nat)
    by (rewrite length_replicate; lia).
  split; [exact Hlen|].
  apply (proj2 (proj2 (prepareSetDataParameters_at_most_255_controllers Sample.signer
                         Sample.accountAddress Sample.delegateAddress
                         (replicate 256 (ControllerAddress Sample.otherAddress)) None
                         Sample.world)) Hlen).
Defined.

Lemma prepareSetDataParameters_deterministic_witness :
  let later := record (EvGetAddress (Some Sample.signerAddress)) Sample.world in
  signer_getAddress Sample.signer (history Sample.world) =
    signer_getAddress Sample.signer (history later) /\
  (prepareSetDataParameters Sample.signer Sample.accountAddress Sample.delegateAddress
     [ControllerAddress Sample.otherAddress] None Sample.world).1 =
  (prepareSetDataParameters Sample.signer Sample.accountAddress Sample.delegateAddress
     [ControllerAddress Sample.otherAddress] None later).1.
Proof.
  intros later. split; [reflexivity|].
  apply (prepareSetDataParameters_deterministic Sample.signer Sample.signer Sample.world
           later Sample.accountAddress Sample.delegateAddress
           [ControllerAddress Sample.otherAddress] None eq_refl).
Defined.

(** C3, as stated, fails: no number of fixed keys makes the count N + 2.
    Without controllers the write set has 5 pairs, with one controller it has
    7, so one more controller adds two pairs, not one. *)
Lemma write_pairs_are_not_N_plus_2 :
  ~ exists fixed : nat,
      forall controllers r,
        Sample.signerAddress ∉ (controllerAddressOf <$> controllers) ->
        (prepareSetDataParameters Sample.signer Sample.accountAddress
           Sample.delegateAddress controllers None Sample.world).1 = Some r ->
        length (keysToSet r) = (fixed + (length controllers + 2))%nat.
Proof.
  intros [fixed Hfixed].
  assert (Hnone : Sample.signerAddress ∉ controllerAddressOf <$> []) by apply not_elem_of_nil.
  assert (Hone : Sample.signerAddress ∉
                 controllerAddressOf <$> [ControllerAddress Sample.otherAddress]).
  { intros Hin%list_elem_of_singleton. discriminate Hin. }
  assert (Hempty : exists r,
    (prepareSetDataParameters Sample.signer Sample.accountAddress
       Sample.delegateAddress [] None Sample.world).1 = Some r /\
    length (keysToSet r) = 5%nat)
    by (eexists; split; vm_compute; reflexivity).
  assert (Hsingle : exists r,
    (prepareSetDataParameters Sample.signer Sample.accountAddress
       Sample.delegateAddress [ControllerAddress Sample.otherAddress] None
       Sample.world).1 = Some r /\
    length (keysToSet r) = 7%nat)
    by (eexists; split; vm_compute; reflexivity).
  destruct Hempty as (r0 & Hr0 & Hlen0). destruct Hsingle as (r1 & Hr1 & Hlen1).
  pose proof (Hfixed [] r0 Hnone Hr0) as H0.
  pose proof (Hfixed [ControllerAddress Sample.otherAddress] r1 Hone Hr1) as H1.
  rewrite Hlen0 in H0. rewrite Hlen1 in H1. cbn [length] in H0, H1. lia.
Qed.


Lemma signer_absent_write_set_witness :
  (length [ControllerAddress Sample.otherAddress] <= 255)%nat /\
  signer_getAddress Sample.signer (history Sample.world) = Some Sample.signerAddress /\
  (Sample.signerAddress ∉ controllerAddressOf <$> [ControllerAddress Sample.otherAddress]) /\
  exists r arrayLength,
    (prepareSetDataParameters Sample.signer Sample.accountAddress Sample.delegateAddress
       [ControllerAddress Sample.otherAddress] None Sample.world).1 = Some r /\
    length (keysToSet r) = (2 + (2 * 1 + 3) + 0)%nat /\
    length (valuesToSet r) = length (keysToSet r) /\
    valuesToSet r !! 2%nat = Some (Some arrayLength) /\
    Ethers.hexToNumber arrayLength = 2.
Proof.
  assert (Hlen : (length [ControllerAddress Sample.otherAddress] <= 255)%nat)
    by (cbn; lia).
  assert (Habsent : Sample.signerAddress ∉
                    controllerAddressOf <$> [ControllerAddress Sample.otherAddress]).
  { intros Hin%list_elem_of_singleton. discriminate Hin. }
  (split_and!); [exact Hlen|reflexivity|exact Habsent|].
  destruct (signer_absent_write_set Sample.signer Sample.accountAddress
              Sample.delegateAddress [ControllerAddress Sample.otherAddress] None
              Sample.world Sample.signerAddress Hlen eq_refl Habsent)
    as (r & indexKeys & delegateIndexKey & arrayLength & Hr & _ & _ & _ & _ & Hkeys
        & Hvalues & Hlength & Hnumber).
  exists r, arrayLength. (split_and!); assumption.
Defined.


Lemma revokeSignerPermissions_value_witness :
  let requested := LSP6.encode [("SETDATA", true)] in
  let controllers :=
    [ControllerAddress Sample.otherAddress;
     ControllerOptions Sample.signerAddress (Some requested)] in
  signer_getAddress Sample.signer (history Sample.world) = Some Sample.signerAddress /\
  exists overrides result,
    trace (revokeSignerPermissions Sample.signer Sample.keyManagerAddress
             Sample.accountAddress controllers) Sample.world !! 2%nat =
      Some (EvSend
              (CallRequest
                 {| target := Sample.keyManagerAddress;
                    fn := "execute";
                    args := [APayload
                               (FunctionData "setData(bytes32,bytes)"
                                  [PREFIX_PERMISSIONS +:+
                                     Js.substring_from 2 Sample.signerAddress;
                                   requested])] |}
                 overrides)
              result).
Proof.
  intros requested controllers. split; [reflexivity|].
  destruct (revokeSignerPermissions_value Sample.signer Sample.keyManagerAddress
              Sample.accountAddress controllers Sample.world Sample.signerAddress eq_refl)
    as (submission & Htrace & Hsubmission).
  cbn in Hsubmission. destruct Hsubmission as [result ->].
  rewrite Htrace. eexists _, result. reflexivity.
Defined.



Lemma account_creation_modes_witness :
  replays Sample.world !! "accountDeployment$" = None /\
  replays Sample.world !! "accountDeploymentReceipt$" = None /\
  replays Sample.world !! "accountDeploymentInitialize$" = None /\
  replays Sample.world !! "accountDeploymentInitializeReceipt$" = None /\
  (exists events,
     (accountDeploymentWithBaseContractAddress_obs Sample.signer
        (Some Sample.otherAddress) None Sample.world).1 = Some events /\
     type <$> events = [PROXY; PROXY; TRANSACTION; TRANSACTION]) /\
  (exists events,
     (accountDeploymentWithBaseContractAddress_obs Sample.signer None None
        Sample.world).1 = Some events /\
     type <$> events = [CONTRACT; CONTRACT]).
Proof.
  (split_and!); [reflexivity..| |].
  - destruct (account_creation_modes Sample.signer (Some Sample.otherAddress) None
                Sample.world eq_refl eq_refl eq_refl eq_refl) as [_ Hsuccess].
    eexists. split; [vm_compute; reflexivity|].
    destruct (Hsuccess _ eq_refl) as (? & ? & ? & ? & ? & ? & ? & _ & _ & Htypes & _).
    exact Htypes.
  - destruct (account_creation_modes Sample.signer None None
                Sample.world eq_refl eq_refl eq_refl eq_refl) as [_ Hsuccess].
    eexists. split; [vm_compute; reflexivity|].
    destruct (Hsuccess _ eq_refl) as (? & ? & ? & _ & Htypes & _).
    exact Htypes.
Defined.

Lemma revocation_only_after_claim_receipt_witness :
  quiet Sample.account_obs /\
  quiet Sample.universalReceiver_obs /\
  quiet Sample.lsp3ProfileData_obs /\
  quiet Sample.isSignerUniversalProfile_obs /\
  quiet Sample.keyManagerDeployment_obs /\
  revocationAfterClaim (history Sample.world) /\
  replays Sample.world !! "claimOwnership$" = None /\
  revocationAfterClaim
    (history
       (setDataAndTransferOwnershipTransactions_obs Sample.signer Sample.account_obs
          Sample.universalReceiver_obs [ControllerAddress Sample.otherAddress]
          Sample.lsp3ProfileData_obs Sample.isSignerUniversalProfile_obs
          Sample.keyManagerDeployment_obs (Some Sample.delegateAddress) Sample.world).2).
Proof.
  assert (Hstart : revocationAfterClaim (history Sample.world)).
  { intros before request result after Heq _. by destruct before. }
  (split_and!); try apply quiet_of; try apply quiet_EMPTY; [exact Hstart|reflexivity|].
  apply (revocation_only_after_claim_receipt Sample.signer Sample.account_obs
           Sample.universalReceiver_obs [ControllerAddress Sample.otherAddress]
           Sample.lsp3ProfileData_obs Sample.isSignerUniversalProfile_obs
           Sample.keyManagerDeployment_obs (Some Sample.delegateAddress) Sample.world
           (quiet_of _) quiet_EMPTY (quiet_of _) (quiet_of _) (quiet_of _) Hstart eq_refl).
Defined.

(** In the sample run the revocation is indeed submitted, after the receipt. *)
Example sample_handoff_revokes_after_the_claim_receipt :
  let h :=
    history
      (setDataAndTransferOwnershipTransactions_obs Sample.signer Sample.account_obs
         Sample.universalReceiver_obs [ControllerAddress Sample.otherAddress]
         Sample.lsp3ProfileData_obs Sample.isSignerUniversalProfile_obs
         Sample.keyManagerDeployment_obs (Some Sample.delegateAddress) Sample.world).2 in
  exists tx r request result,
    h !! 13%nat = Some (EvWait tx (Some r)) /\ isClaimOwnership tx /\
    h !! 17%nat = Some (EvSend request result) /\ isRevocation request.
Proof.
  intros h. eexists _, _, _, _. split_and!.
  - vm_compute. reflexivity.
  - by eexists _, _.
  - vm_compute. reflexivity.
  - by eexists _, _, _, _.
Qed.
